(** * MobilityDB-visualization: the two QGIS console scripts

    [create_temporal_layer.py] builds a memory point layer with a [time]
    field and a temporal configuration; [import_rows_to_memory.py] reads the
    rows of a MobilityDB table into the console variable [rows].

    Both scripts are flat sequences of statements over the console's global
    namespace and over objects owned by the host (QGIS) or by the database
    driver (psycopg2).  A statement is embedded as a state transformer that
    either completes or raises; a script is the list of its statements. *)

From Stdlib Require Import ZArith.
From stdpp Require Import gmap strings list fin_maps.

(** ** Python control flow shared by the two scripts *)

Module Py.

(** The exception classes that matter to the scripts.  The first three
    derive from [BaseException] only; every other class derives from
    [Exception].  [Psycopg2_Error] stands for [psycopg2.Error] and its
    subclasses. *)
Inductive pyclass :=
| KeyboardInterrupt | SystemExit | GeneratorExit
| NameError | AttributeError | TypeError | ImportError | RuntimeError
| Psycopg2_Error.

Record exn := mk_exn { exn_class : pyclass; exn_msg : string }.

Definition isinstance_Exception (e : exn) : bool :=
  match exn_class e with
  | KeyboardInterrupt | SystemExit | GeneratorExit => false
  | _ => true
  end.

Definition isinstance_psycopg2_Error (e : exn) : bool :=
  match exn_class e with
  | Psycopg2_Error => true
  | _ => false
  end.

Inductive result (A : Type) :=
| Ok (a : A)
| Raise (e : exn).
Arguments Ok {A} a.
Arguments Raise {A} e.

Section Control.
Context {St : Type}.

(** A computation over the interpreter state. *)
Definition M (A : Type) : Type := St -> result A * St.

Definition ret {A} (a : A) : M A := fun s => (Ok a, s).
Definition raise {A} (e : exn) : M A := fun s => (Raise e, s).
Definition bind {A B} (m : M A) (k : A -> M B) : M B :=
  fun s =>
    match m s with
    | (Ok a, s') => k a s'
    | (Raise e, s') => (Raise e, s')
    end.

Definition stmt : Type := M unit.

(** A suite: the statements run in order, the first raise ends it. *)
Fixpoint exec_block (b : list stmt) : stmt :=
  match b with
  | [] => ret tt
  | c :: b' => bind c (fun _ => exec_block b')
  end.

(** [try: body / except <matches> as e: handler e / finally: fin].
    The handler runs when the body raises an exception the clause
    matches; the cleanup suite always runs, and an exception it raises
    replaces whatever was pending. *)
Definition try_except_finally
    (body : list stmt) (matches : exn -> bool)
    (handler : exn -> list stmt) (fin : list stmt) : stmt :=
  fun s =>
    let '(o1, s1) := exec_block body s in
    let '(o2, s2) :=
      match o1 with
      | Ok _ => (Ok tt, s1)
      | Raise e =>
          if matches e then exec_block (handler e) s1
          else (Raise e, s1)
      end in
    let '(o3, s3) := exec_block fin s2 in
    match o3 with
    | Ok _ => (o2, s3)
    | Raise e' => (Raise e', s3)
    end.

End Control.
Arguments M : clear implicits.
Arguments stmt : clear implicits.

End Py.

Declare Scope py_scope.
Delimit Scope py_scope with py.
Notation "x <- m ;; k" := (Py.bind m (fun x => k))
  (at level 100, m at next level, right associativity) : py_scope.
Notation "m ;;; k" := (Py.bind m (fun _ => k))
  (at level 100, right associativity) : py_scope.

(** ** create_temporal_layer.py *)

Module CreateTemporalLayer.
Import Py.
Local Open Scope py_scope.

(** *** The host objects the script touches *)

Inductive QVariant :=
| QVariant_Invalid | QVariant_Bool | QVariant_Int | QVariant_Double
| QVariant_String | QVariant_Date | QVariant_Time | QVariant_DateTime.

Record QgsField := mk_QgsField { field_name : string; field_type : QVariant }.

Global Instance QVariant_eq_dec : EqDecision QVariant.
Proof. solve_decision. Defined.
Global Instance QgsField_eq_dec : EqDecision QgsField.
Proof. solve_decision. Defined.

(** The temporal configuration attached to a vector layer.  The mode is
    kept as the integer the script passes; [mode_of_int] names it. *)
Record temporal_properties := mk_tp {
  tp_isActive : bool;
  tp_mode : Z;
  tp_startField : string
}.

Inductive TemporalMode :=
| ModeFixedTemporalRange
| ModeFeatureDateTimeInstantFromField
| ModeFeatureDateTimeStartAndEndFromFields
| ModeFeatureDateTimeStartAndDurationFromFields
| ModeFeatureDateTimeStartAndEndFromExpressions
| ModeRedrawLayerOnly.

Definition mode_of_int (m : Z) : option TemporalMode :=
  match m with
  | 0%Z => Some ModeFixedTemporalRange
  | 1%Z => Some ModeFeatureDateTimeInstantFromField
  | 2%Z => Some ModeFeatureDateTimeStartAndEndFromFields
  | 3%Z => Some ModeFeatureDateTimeStartAndDurationFromFields
  | 4%Z => Some ModeFeatureDateTimeStartAndEndFromExpressions
  | 5%Z => Some ModeRedrawLayerOnly
  | _ => None
  end.

(** A vector layer: the three constructor arguments, the fields held by
    its data provider (absent when the provider could not be created),
    the layer's own field list, which [updateFields] refreshes from the
    provider, and the temporal configuration. *)
Record layer := mk_layer {
  l_source : string;
  l_name : string;
  l_providerKey : string;
  l_provider : option (list QgsField);
  l_fields : list QgsField;
  l_temporal : temporal_properties
}.

Abbreviation ref := nat (only parsing).

(** Calls into the host, in the order they are made. *)
Inductive call :=
| Call_QgsVectorLayer (uri name provider : string) (r : ref)
| Call_dataProvider (r : ref)
| Call_addAttributes (r : ref) (fs : list QgsField)
| Call_updateFields (r : ref)
| Call_temporalProperties (r : ref)
| Call_setIsActive (r : ref) (b : bool)
| Call_setMode (r : ref) (m : Z)
| Call_setStartField (r : ref) (f : string)
| Call_QgsProject_instance
| Call_addMapLayer (r : ref).

Global Instance call_eq_dec : EqDecision call.
Proof. solve_decision. Defined.

(** The host: the layer objects alive, the project's layer registry and
    the log of calls. *)
Record host := mk_host {
  layers : gmap nat layer;
  registry : list nat;
  calls : list call
}.

Inductive pyval :=
| PyNone
| PyLayer (r : ref)
| PyProvider (r : ref)
| PyTemporal (r : ref)
| PyProject.

Record state := mk_state {
  globals : gmap string pyval;
  qgis : host
}.

(** *** Primitive operations on the state *)

Definition assign (x : string) (v : pyval) : M state unit :=
  fun s => (Ok tt, mk_state (<[x := v]> (globals s)) (qgis s)).

Definition name (x : string) : M state pyval :=
  fun s =>
    match globals s !! x with
    | Some v => (Ok v, s)
    | None => (Raise (mk_exn NameError x), s)
    end.

Definition log (c : call) : M state unit :=
  fun s =>
    let h := qgis s in
    (Ok tt, mk_state (globals s) (mk_host (layers h) (registry h) (calls h ++ [c]))).

Definition get_layer (r : ref) : M state layer :=
  fun s =>
    match layers (qgis s) !! r with
    | Some L => (Ok L, s)
    | None => (Raise (mk_exn RuntimeError "wrapped C/C++ object has been deleted"), s)
    end.

Definition put_layer (r : ref) (L : layer) : M state unit :=
  fun s =>
    let h := qgis s in
    (Ok tt, mk_state (globals s) (mk_host (<[r := L]> (layers h)) (registry h) (calls h))).

(** The identity of a newly constructed layer differs from that of every
    layer alive or registered. *)
Definition fresh_ref (h : host) : ref :=
  fresh (dom (layers h) ∪ list_to_set (registry h) : gset nat).

(** *** The host API, memory provider *)

Definition memory_geometry (uri : string) : bool :=
  bool_decide (uri ∈ ["Point"; "LineString"; "Polygon"; "MultiPoint";
                      "MultiLineString"; "MultiPolygon"; "None"]).

Definition default_temporal : temporal_properties := mk_tp false 0 "".

Definition new_layer (uri nm provider : string) : layer :=
  mk_layer uri nm provider
    (if bool_decide (provider = "memory") && memory_geometry uri
     then Some [] else None)
    [] default_temporal.

Definition QgsVectorLayer (uri nm provider : string) : M state pyval :=
  fun s =>
    let r := fresh_ref (qgis s) in
    (put_layer r (new_layer uri nm provider) ;;;
     log (Call_QgsVectorLayer uri nm provider r) ;;;
     ret (PyLayer r)) s.

Definition attribute_error {A} (m : string) : M state A :=
  raise (mk_exn AttributeError m).

Definition dataProvider (self : pyval) : M state pyval :=
  match self with
  | PyLayer r =>
      L <- get_layer r ;;
      log (Call_dataProvider r) ;;;
      ret (match l_provider L with Some _ => PyProvider r | None => PyNone end)
  | _ => attribute_error "dataProvider"
  end.

Definition supportedType (f : QgsField) : bool :=
  negb (bool_decide (field_type f = QVariant_Invalid)).

(** The memory provider appends every field of a supported type whose
    name is not taken yet. *)
Fixpoint append_fields (fs : list QgsField) (acc : list QgsField) : list QgsField :=
  match fs with
  | [] => acc
  | f :: fs' =>
      if supportedType f && negb (bool_decide (field_name f ∈ field_name <$> acc))
      then append_fields fs' (acc ++ [f])
      else append_fields fs' acc
  end.

Definition addAttributes (self : pyval) (fs : list QgsField) : M state unit :=
  match self with
  | PyProvider r =>
      L <- get_layer r ;;
      log (Call_addAttributes r fs) ;;;
      match l_provider L with
      | Some pf =>
          put_layer r (mk_layer (l_source L) (l_name L) (l_providerKey L)
                         (Some (append_fields fs pf)) (l_fields L) (l_temporal L))
      | None => attribute_error "addAttributes"
      end
  | _ => attribute_error "addAttributes"
  end.

Definition updateFields (self : pyval) : M state unit :=
  match self with
  | PyLayer r =>
      L <- get_layer r ;;
      log (Call_updateFields r) ;;;
      put_layer r (mk_layer (l_source L) (l_name L) (l_providerKey L)
                     (l_provider L) (default [] (l_provider L)) (l_temporal L))
  | _ => attribute_error "updateFields"
  end.

Definition temporalProperties (self : pyval) : M state pyval :=
  match self with
  | PyLayer r =>
      _ <- get_layer r ;;
      log (Call_temporalProperties r) ;;;
      ret (PyTemporal r)
  | _ => attribute_error "temporalProperties"
  end.

Definition set_temporal (r : ref) (c : call)
    (f : temporal_properties -> temporal_properties) : M state unit :=
  L <- get_layer r ;;
  log c ;;;
  put_layer r (mk_layer (l_source L) (l_name L) (l_providerKey L)
                 (l_provider L) (l_fields L) (f (l_temporal L))).

Definition setIsActive (self : pyval) (b : bool) : M state unit :=
  match self with
  | PyTemporal r =>
      set_temporal r (Call_setIsActive r b)
        (fun t => mk_tp b (tp_mode t) (tp_startField t))
  | _ => attribute_error "setIsActive"
  end.

Definition setMode (self : pyval) (m : Z) : M state unit :=
  match self with
  | PyTemporal r =>
      set_temporal r (Call_setMode r m)
        (fun t => mk_tp (tp_isActive t) m (tp_startField t))
  | _ => attribute_error "setMode"
  end.

Definition setStartField (self : pyval) (f : string) : M state unit :=
  match self with
  | PyTemporal r =>
      set_temporal r (Call_setStartField r f)
        (fun t => mk_tp (tp_isActive t) (tp_mode t) f)
  | _ => attribute_error "setStartField"
  end.

Definition QgsProject_instance : M state pyval :=
  log Call_QgsProject_instance ;;; ret PyProject.

(** The project's layer store keeps a layer once: registering a layer it
    already holds changes nothing. *)
Definition addMapLayer (self : pyval) (v : pyval) : M state unit :=
  match self, v with
  | PyProject, PyLayer r =>
      _ <- get_layer r ;;
      log (Call_addMapLayer r) ;;;
      fun s =>
        let h := qgis s in
        if bool_decide (r ∈ registry h) then (Ok tt, s)
        else (Ok tt, mk_state (globals s)
                       (mk_host (layers h) (registry h ++ [r]) (calls h)))
  | PyProject, _ => raise (mk_exn TypeError "addMapLayer")
  | _, _ => attribute_error "addMapLayer"
  end.

(** *** The script, statement by statement (source lines 3 to 12) *)

Definition stmt_vlayer : stmt state :=
  v <- QgsVectorLayer "Point" "points_3" "memory" ;; assign "vlayer" v.

Definition stmt_pr : stmt state :=
  o <- name "vlayer" ;; v <- dataProvider o ;; assign "pr" v.

Definition stmt_addAttributes : stmt state :=
  o <- name "pr" ;; addAttributes o [mk_QgsField "time" QVariant_DateTime].

Definition stmt_updateFields : stmt state :=
  o <- name "vlayer" ;; updateFields o.

Definition stmt_tp : stmt state :=
  o <- name "vlayer" ;; v <- temporalProperties o ;; assign "tp" v.

Definition stmt_setIsActive : stmt state :=
  o <- name "tp" ;; setIsActive o true.

Definition stmt_setMode : stmt state :=
  o <- name "tp" ;; setMode o 1.

Definition stmt_setStartField : stmt state :=
  o <- name "tp" ;; setStartField o "time".

Definition stmt_addMapLayer : stmt state :=
  p <- QgsProject_instance ;; o <- name "vlayer" ;; addMapLayer p o.

Definition create_temporal_layer : list (stmt state) :=
  [ stmt_vlayer; stmt_pr; stmt_addAttributes; stmt_updateFields;
    stmt_tp; stmt_setIsActive; stmt_setMode; stmt_setStartField;
    stmt_updateFields; stmt_addMapLayer ].

Definition run (s : state) : result unit * state :=
  exec_block create_temporal_layer s.

(** The state reached after the first [k] statements. *)
Definition run_prefix (k : nat) (s : state) : result unit * state :=
  exec_block (take k create_temporal_layer) s.

(** The host calls one run adds to the log. *)
Definition new_calls (s : state) : list call :=
  drop (length (calls (qgis s))) (calls (qgis (snd (run s)))).

(** The script run [n] times in a row in the same console; a run that
    raises ends the series. *)
Fixpoint run_times (n : nat) (s : state) : result unit * state :=
  match n with
  | O => (Ok tt, s)
  | S n' =>
      match run s with
      | (Ok _, s') => run_times n' s'
      | (Raise e, s') => (Raise e, s')
      end
  end.

(** *** Vocabulary of the properties *)

Definition time_field : QgsField := mk_QgsField "time" QVariant_DateTime.

Definition is_addAttributes (c : call) : bool :=
  match c with Call_addAttributes _ _ => true | _ => false end.

Definition is_updateFields (c : call) : bool :=
  match c with Call_updateFields _ => true | _ => false end.

(** The temporal-configuration steps: activation, mode, start field. *)
Definition temporal_step (c : call) : bool :=
  match c with
  | Call_setIsActive _ _ | Call_setMode _ _ | Call_setStartField _ _ => true
  | _ => false
  end.

Definition count_calls (p : call -> bool) (l : list call) : nat :=
  length (filter (fun c => p c = true) l).

(** A console just opened on an empty project. *)
Definition empty_console : state := mk_state ∅ (mk_host ∅ [] []).

(** A memory point layer labelled [points_3] whose field list holds
    [time] and whose temporal configuration is the one the script sets. *)
Definition temporal_point_layer (L : layer) : Prop :=
  l_source L = "Point" ∧ l_providerKey L = "memory" ∧
  l_name L = "points_3" ∧
  time_field ∈ l_fields L ∧
  tp_isActive (l_temporal L) = true ∧
  tp_mode (l_temporal L) = 1%Z ∧
  mode_of_int (tp_mode (l_temporal L)) = Some ModeFeatureDateTimeInstantFromField ∧
  tp_startField (l_temporal L) = "time".

End CreateTemporalLayer.

(** ** import_rows_to_memory.py *)

Module ImportRowsToMemory.
Import Py.
Local Open Scope py_scope.

(** *** Values and external objects *)

(** The date-time interval of an animation frame (milliseconds). *)
Record QgsDateTimeRange := mk_range { range_begin : Z; range_end : Z }.

Abbreviation ref := nat (only parsing).

#[warnings="-register-all"] Inductive pyval :=
| PyNone
| PyBool (b : bool)
| PyInt (z : Z)
| PyStr (s : string)
| PyModule (m : string)
| PyFunction (f : string)
| PyCanvas
| PyTemporalController
| PyRange (d : QgsDateTimeRange)
| PyConnection (c : ref)
| PyCursor (k : ref)
| PyTrip (text : string)
| PyTuple (items : list pyval)
| PyList (items : list pyval)
| PyExn (e : exn).

(** Truth value of an object, as [if obj:] tests it. *)
Definition truthy (v : pyval) : bool :=
  match v with
  | PyNone => false
  | PyBool b => b
  | PyInt z => negb (z =? 0)%Z
  | PyStr s => negb (String.eqb s "")
  | PyTuple l | PyList l => negb (Nat.eqb (length l) 0)
  | _ => true
  end.

Definition str (v : pyval) : string :=
  match v with
  | PyStr s => s
  | PyExn e => exn_msg e
  | PyNone => "None"
  | _ => "<object>"
  end.

(** The places where the script calls out of the interpreter. *)
Inductive site :=
| Site_import_psycopg2 | Site_import_register
| Site_mapCanvas | Site_temporalController | Site_currentFrameNumber
| Site_connect | Site_autocommit | Site_register | Site_cursor
| Site_dateTimeRangeForFrameNumber | Site_execute | Site_fetchall
| Site_close.

Global Instance site_eq_dec : EqDecision site.
Proof. solve_decision. Defined.

(** What lies outside the script: for every call site whether the call
    raises, what the temporal controller answers, and the [trip] column
    of table [trips_test] as the server returns it (a null is [None]). *)
Record world := mk_world {
  fault : site -> option exn;
  frame_number : Z;
  frame_range : Z -> QgsDateTimeRange;
  trips_test : list (option string)
}.

Record connection := mk_connection {
  c_closed : bool;
  c_autocommit : bool;
  c_registered : bool
}.

Record cursor := mk_cursor {
  k_connection : ref;
  k_result : option (list (list (option string)))
}.

Inductive call :=
| Call_mapCanvas
| Call_temporalController
| Call_currentFrameNumber
| Call_connect (host database user password : string) (res : option ref)
| Call_set_autocommit (c : ref) (b : bool)
| Call_register (c : ref)
| Call_cursor (c : ref)
| Call_dateTimeRangeForFrameNumber (n : Z)
| Call_execute (k : ref) (query : string) (params : option (list string))
| Call_fetchall (k : ref)
| Call_close (c : ref).

Global Instance call_eq_dec : EqDecision call.
Proof. solve_decision. Defined.

Record state := mk_state {
  globals : gmap string pyval;
  stdout : list string;
  connections : gmap nat connection;
  cursors : gmap nat cursor;
  calls : list call
}.

(** *** Primitive operations on the state *)

Definition assign (x : string) (v : pyval) : M state unit :=
  fun s => (Ok tt, mk_state (<[x := v]> (globals s)) (stdout s)
                     (connections s) (cursors s) (calls s)).

Definition unbind (x : string) : M state unit :=
  fun s => (Ok tt, mk_state (delete x (globals s)) (stdout s)
                     (connections s) (cursors s) (calls s)).

Definition name (x : string) : M state pyval :=
  fun s =>
    match globals s !! x with
    | Some v => (Ok v, s)
    | None => (Raise (mk_exn NameError x), s)
    end.

Definition log (c : call) : M state unit :=
  fun s => (Ok tt, mk_state (globals s) (stdout s)
                     (connections s) (cursors s) (calls s ++ [c])).

Definition write_line (l : string) : M state unit :=
  fun s => (Ok tt, mk_state (globals s) (stdout s ++ [l])
                     (connections s) (cursors s) (calls s)).

Definition get_connection (c : ref) : M state connection :=
  fun s =>
    match connections s !! c with
    | Some x => (Ok x, s)
    | None => (Raise (mk_exn RuntimeError "no such connection"), s)
    end.

Definition put_connection (c : ref) (x : connection) : M state unit :=
  fun s => (Ok tt, mk_state (globals s) (stdout s)
                     (<[c := x]> (connections s)) (cursors s) (calls s)).

Definition get_cursor (k : ref) : M state cursor :=
  fun s =>
    match cursors s !! k with
    | Some x => (Ok x, s)
    | None => (Raise (mk_exn RuntimeError "no such cursor"), s)
    end.

Definition put_cursor (k : ref) (x : cursor) : M state unit :=
  fun s => (Ok tt, mk_state (globals s) (stdout s)
                     (connections s) (<[k := x]> (cursors s)) (calls s)).

Definition attribute_error {A} (m : string) : M state A :=
  raise (mk_exn AttributeError m).

Definition type_error {A} (m : string) : M state A :=
  raise (mk_exn TypeError m).

Definition interface_error {A} (m : string) : M state A :=
  raise (mk_exn Psycopg2_Error m).

Section Script.
Variable w : world.

(** The call at [st] raises when the world says so. *)
Definition external (st : site) : M state unit :=
  fun s =>
    match fault w st with
    | Some e => (Raise e, s)
    | None => (Ok tt, s)
    end.

(** *** Host and driver API *)

Definition import_module (st : site) (x : string) (v : pyval) : stmt state :=
  external st ;;; assign x v.

Definition iface_mapCanvas : M state pyval :=
  log Call_mapCanvas ;;; external Site_mapCanvas ;;; ret PyCanvas.

Definition temporalController (self : pyval) : M state pyval :=
  match self with
  | PyCanvas =>
      log Call_temporalController ;;;
      external Site_temporalController ;;; ret PyTemporalController
  | _ => attribute_error "temporalController"
  end.

Definition currentFrameNumber (self : pyval) : M state pyval :=
  match self with
  | PyTemporalController =>
      log Call_currentFrameNumber ;;;
      external Site_currentFrameNumber ;;; ret (PyInt (frame_number w))
  | _ => attribute_error "currentFrameNumber"
  end.

Definition dateTimeRangeForFrameNumber (self n : pyval) : M state pyval :=
  match self, n with
  | PyTemporalController, PyInt z =>
      log (Call_dateTimeRangeForFrameNumber z) ;;;
      external Site_dateTimeRangeForFrameNumber ;;;
      ret (PyRange (frame_range w z))
  | PyTemporalController, _ => type_error "dateTimeRangeForFrameNumber"
  | _, _ => attribute_error "dateTimeRangeForFrameNumber"
  end.

Definition connect (self : pyval) (host database user password : string)
  : M state pyval :=
  match self with
  | PyModule "psycopg2" =>
      fun s =>
        match fault w Site_connect with
        | Some e =>
            (log (Call_connect host database user password None) ;;;
             raise e) s
        | None =>
            let c := fresh (dom (connections s)) in
            (log (Call_connect host database user password (Some c)) ;;;
             put_connection c (mk_connection false false false) ;;;
             ret (PyConnection c)) s
        end
  | _ => attribute_error "connect"
  end.

Definition set_autocommit (self : pyval) (b : bool) : M state unit :=
  match self with
  | PyConnection c =>
      log (Call_set_autocommit c b) ;;;
      external Site_autocommit ;;;
      x <- get_connection c ;;
      if c_closed x then interface_error "connection already closed"
      else put_connection c (mk_connection (c_closed x) b (c_registered x))
  | _ => attribute_error "autocommit"
  end.

(** [mobilitydb.psycopg.register]: installs the decoders of the
    MobilityDB types for the values read through the connection. *)
Definition register (f arg : pyval) : M state unit :=
  match f, arg with
  | PyFunction "register", PyConnection c =>
      log (Call_register c) ;;;
      external Site_register ;;;
      x <- get_connection c ;;
      if c_closed x then interface_error "connection already closed"
      else put_connection c (mk_connection (c_closed x) (c_autocommit x) true)
  | PyFunction "register", _ => attribute_error "cursor"
  | _, _ => type_error "object is not callable"
  end.

Definition connection_cursor (self : pyval) : M state pyval :=
  match self with
  | PyConnection c =>
      log (Call_cursor c) ;;;
      external Site_cursor ;;;
      x <- get_connection c ;;
      if c_closed x then interface_error "connection already closed"
      else
        fun s =>
          let k := fresh (dom (cursors s)) in
          (put_cursor k (mk_cursor c None) ;;; ret (PyCursor k)) s
  | _ => attribute_error "cursor"
  end.

(** The server side is modelled for the one statement the script
    sends: it answers with the [trip] column of [trips_test], one
    one-column row per table row.  Any other text is rejected. *)
Definition server_answer (query : string)
  : option (list (list (option string))) :=
  if String.eqb query "SELECT trip FROM trips_test"
  then Some ((fun v => [v]) <$> trips_test w)
  else None.

Definition cursor_execute (self query : pyval) : M state unit :=
  match self, query with
  | PyCursor k, PyStr q =>
      log (Call_execute k q None) ;;;
      external Site_execute ;;;
      x <- get_cursor k ;;
      cn <- get_connection (k_connection x) ;;
      if c_closed cn then interface_error "cursor already closed"
      else
        match server_answer q with
        | Some rs => put_cursor k (mk_cursor (k_connection x) (Some rs))
        | None => interface_error "syntax error"
        end
  | PyCursor _, _ => type_error "argument 1 must be a string"
  | _, _ => attribute_error "execute"
  end.

(** A column value as the driver hands it to Python: a null is [None];
    otherwise the registered decoder builds the temporal object, and
    without it the text comes back as a string. *)
Definition decode (registered : bool) (v : option string) : pyval :=
  match v with
  | None => PyNone
  | Some t => if registered then PyTrip t else PyStr t
  end.

Definition cursor_fetchall (self : pyval) : M state pyval :=
  match self with
  | PyCursor k =>
      log (Call_fetchall k) ;;;
      external Site_fetchall ;;;
      x <- get_cursor k ;;
      cn <- get_connection (k_connection x) ;;
      match k_result x with
      | Some rs =>
          put_cursor k (mk_cursor (k_connection x) (Some [])) ;;;
          ret (PyList ((fun row => PyTuple (decode (c_registered cn) <$> row)) <$> rs))
      | None => interface_error "no results to fetch"
      end
  | _ => attribute_error "fetchall"
  end.

Definition connection_close (self : pyval) : M state unit :=
  match self with
  | PyConnection c =>
      log (Call_close c) ;;;
      external Site_close ;;;
      x <- get_connection c ;;
      put_connection c (mk_connection true (c_autocommit x) (c_registered x))
  | _ => attribute_error "close"
  end.

(** [print(a, b)]: the two arguments, separated by a space. *)
Definition print2 (a b : pyval) : M state unit :=
  write_line (str a +:+ " " +:+ str b).

(** *** The script, statement by statement *)

(* lines 2 to 6 and 8 *)
Definition stmt_import_psycopg2 : stmt state :=
  import_module Site_import_psycopg2 "psycopg2" (PyModule "psycopg2").

Definition stmt_import_register : stmt state :=
  import_module Site_import_register "register" (PyFunction "register").

Definition stmt_canvas : stmt state :=
  v <- iface_mapCanvas ;; assign "canvas" v.

Definition stmt_temporalController : stmt state :=
  o <- name "canvas" ;; v <- temporalController o ;;
  assign "temporalController" v.

Definition stmt_currentFrameNumber : stmt state :=
  o <- name "temporalController" ;; v <- currentFrameNumber o ;;
  assign "currentFrameNumber" v.

Definition stmt_connection_None : stmt state :=
  assign "connection" PyNone.

(* lines 12 to 26 *)
Definition stmt_connect : stmt state :=
  m <- name "psycopg2" ;;
  v <- connect m "localhost" "postgres" "postgres" "postgres" ;;
  assign "connection" v.

Definition stmt_autocommit : stmt state :=
  o <- name "connection" ;; set_autocommit o true.

Definition stmt_register : stmt state :=
  f <- name "register" ;; o <- name "connection" ;; register f o.

Definition stmt_cursor : stmt state :=
  o <- name "connection" ;; v <- connection_cursor o ;; assign "cursor" v.

Definition stmt_select_query : stmt state :=
  assign "select_query" (PyStr "SELECT trip FROM trips_test").

Definition stmt_dtrange : stmt state :=
  o <- name "temporalController" ;; n <- name "currentFrameNumber" ;;
  v <- dateTimeRangeForFrameNumber o n ;; assign "dtrange" v.

Definition stmt_execute : stmt state :=
  o <- name "cursor" ;; q <- name "select_query" ;; cursor_execute o q.

Definition stmt_rows : stmt state :=
  o <- name "cursor" ;; v <- cursor_fetchall o ;; assign "rows" v.

(* line 38 *)
Definition stmt_print_error : stmt state :=
  e <- name "error" ;;
  print2 (PyStr "Error while connecting to PostgreSQL") e.

(* lines 42 and 43 *)
Definition stmt_close : stmt state :=
  o <- name "connection" ;;
  if truthy o then (o' <- name "connection" ;; connection_close o')
  else ret tt.

Definition prelude : list (stmt state) :=
  [ stmt_import_psycopg2; stmt_import_register; stmt_canvas;
    stmt_temporalController; stmt_currentFrameNumber;
    stmt_connection_None ].

Definition try_body : list (stmt state) :=
  [ stmt_connect; stmt_autocommit; stmt_register; stmt_cursor;
    stmt_select_query; stmt_dtrange; stmt_execute; stmt_rows ].

(** [except (Exception, psycopg2.Error) as error:] *)
Definition handler_matches (e : exn) : bool :=
  isinstance_Exception e || isinstance_psycopg2_Error e.

(** The handler binds [error] for its suite and unbinds it after. *)
Definition handler (e : exn) : list (stmt state) :=
  [ assign "error" (PyExn e); stmt_print_error; unbind "error" ].

Definition cleanup : list (stmt state) := [ stmt_close ].

Definition stmt_try : stmt state :=
  try_except_finally try_body handler_matches handler cleanup.

Definition import_rows_to_memory : list (stmt state) :=
  prelude ++ [ stmt_try ].

Definition run (s : state) : result unit * state :=
  exec_block import_rows_to_memory s.

(** The states between the parts of the script. *)
Definition after_prelude (s : state) : state :=
  snd (exec_block prelude s).

Definition after_try_body (s : state) : state :=
  snd (exec_block try_body (after_prelude s)).

(** The external calls one run adds to the log. *)
Definition new_calls (s : state) : list call :=
  drop (length (calls s)) (calls (snd (run s))).

(** The lines one run prints. *)
Definition new_output (s : state) : list string :=
  drop (length (stdout s)) (stdout (snd (run s))).

End Script.

(** *** Vocabulary of the properties *)

(** The connections a log shows as opened, and as closed, in order. *)
Definition opened_connections (l : list call) : list ref :=
  omap (fun c => match c with Call_connect _ _ _ _ (Some r) => Some r | _ => None end) l.

Definition closed_connections (l : list call) : list ref :=
  omap (fun c => match c with Call_close r => Some r | _ => None end) l.

(** The statements a log shows as sent to the server, with their
    parameters. *)
Definition executed_queries (l : list call) : list (string * option (list string)) :=
  omap (fun c => match c with Call_execute _ q p => Some (q, p) | _ => None end) l.

(** The line the handler prints for [e]. *)
Definition error_line (e : exn) : string :=
  "Error while connecting to PostgreSQL " +:+ exn_msg e.

(** The same world with another frame-to-range mapping. *)
Definition with_frame_range (w : world) (f : Z -> QgsDateTimeRange) : world :=
  mk_world (fault w) (frame_number w) f (trips_test w).

(** The first exception the world raises at the given call sites, taken
    in order. *)
Fixpoint first_fault (w : world) (sites : list site) : option exn :=
  match sites with
  | [] => None
  | st :: rest =>
      match fault w st with
      | Some e => Some e
      | None => first_fault w rest
      end
  end.

(** The external calls before the try block, and inside it. *)
Definition prelude_sites : list site :=
  [ Site_import_psycopg2; Site_import_register; Site_mapCanvas;
    Site_temporalController; Site_currentFrameNumber ].

Definition try_sites : list site :=
  [ Site_connect; Site_autocommit; Site_register; Site_cursor;
    Site_dateTimeRangeForFrameNumber; Site_execute; Site_fetchall ].

(** The value the script stores for a column value of [trips_test]. *)
Definition row_of (v : option string) : pyval :=
  PyTuple [match v with Some t => PyTrip t | None => PyNone end].

(** *** Sample consoles and worlds *)

Definition fresh_console : state := mk_state ∅ [] ∅ ∅ [].

(** A console in which [error] is already bound. *)
Definition console_with_error : state :=
  mk_state {[ "error" := PyStr "left over" ]} [] ∅ ∅ [].

Definition no_fault : site -> option exn := fun _ => None.

Definition fault_at (st : site) (e : exn) : site -> option exn :=
  fun x => if decide (x = st) then Some e else None.

Definition one_second_frames (n : Z) : QgsDateTimeRange :=
  mk_range (n * 1000) (n * 1000 + 1000).

Definition two_trips : list (option string) :=
  [Some "[POINT(1 1)@2020-01-01, POINT(2 2)@2020-01-02]"; None].

Definition healthy_world : world :=
  mk_world no_fault 7 one_second_frames two_trips.

Definition undefined_table : exn :=
  mk_exn Psycopg2_Error "relation trips_test does not exist".

Definition close_failed : exn :=
  mk_exn Psycopg2_Error "connection close failed".

Definition missing_driver : exn :=
  mk_exn ImportError "No module named psycopg2".

(** The query fails on the server. *)
Definition world_query_fails : world :=
  mk_world (fault_at Site_execute undefined_table) 7 one_second_frames two_trips.

(** The query fails, and then closing the connection fails too. *)
Definition world_query_and_close_fail : world :=
  mk_world
    (fun x => if decide (x = Site_execute) then Some undefined_table
              else if decide (x = Site_close) then Some close_failed
              else None)
    7 one_second_frames two_trips.

(** The user interrupts the connection attempt. *)
Definition interrupted : exn := mk_exn KeyboardInterrupt "".

Definition world_interrupted : world :=
  mk_world (fault_at Site_connect interrupted) 7 one_second_frames two_trips.

(** The driver is not installed. *)
Definition world_without_driver : world :=
  mk_world (fault_at Site_import_psycopg2 missing_driver) 7
    one_second_frames two_trips.

End ImportRowsToMemory.

(** * Properties of the Layer Initializer *)

Module LayerInitializer.
Import Py CreateTemporalLayer.

Lemma fresh_ref_not_registered (h : host) : fresh_ref h ∉ registry h.
Proof.
  unfold fresh_ref.
  pose proof (is_fresh (dom (layers h) ∪ list_to_set (registry h) : gset nat)) as Hf.
  set_solver.
Qed.

Lemma fresh_ref_not_alive (h : host) : layers h !! fresh_ref h = None.
Proof.
  unfold fresh_ref.
  pose proof (is_fresh (dom (layers h) ∪ list_to_set (registry h) : gset nat)) as Hf.
  apply not_elem_of_dom. set_solver.
Qed.

Lemma new_layer_points_3 :
  new_layer "Point" "points_3" "memory" =
  mk_layer "Point" "points_3" "memory" (Some []) [] default_temporal.
Proof. reflexivity. Qed.

Lemma append_time_field :
  append_fields [mk_QgsField "time" QVariant_DateTime] [] =
  [mk_QgsField "time" QVariant_DateTime].
Proof. reflexivity. Qed.

(** Symbolic execution of the statements: unfold the interpreter and the
    host operations, then resolve the lookups in the namespace and in the
    layer store. *)
Ltac qgis_unfold :=
  cbv beta iota zeta delta
    [run run_prefix create_temporal_layer exec_block bind ret raise take
     stmt_vlayer stmt_pr stmt_addAttributes stmt_updateFields stmt_tp
     stmt_setIsActive stmt_setMode stmt_setStartField stmt_addMapLayer
     QgsVectorLayer dataProvider addAttributes updateFields
     temporalProperties set_temporal setIsActive setMode setStartField
     QgsProject_instance addMapLayer
     assign name log get_layer put_layer attribute_error
     globals qgis layers registry calls fst snd default
     l_source l_name l_providerKey l_provider l_fields l_temporal
     tp_isActive tp_mode tp_startField default_temporal].

Ltac qgis_lookup :=
  first [ rewrite lookup_insert_eq
        | rewrite lookup_insert_ne by done
        | rewrite insert_insert_eq
        | rewrite new_layer_points_3
        | rewrite append_time_field ].

Ltac qgis_exec := qgis_unfold; repeat (qgis_lookup; qgis_unfold).

(** The complete effect of one run, from any console state. *)
Lemma run_eq (g : gmap string pyval) (ls : gmap nat layer)
    (reg : list nat) (cs : list call) :
  let r := fresh_ref (mk_host ls reg cs) in
  run (mk_state g (mk_host ls reg cs)) =
  (Ok tt,
   mk_state
     (<["tp" := PyTemporal r]>
        (<["pr" := PyProvider r]> (<["vlayer" := PyLayer r]> g)))
     (mk_host
        (<[r := mk_layer "Point" "points_3" "memory"
                  (Some [mk_QgsField "time" QVariant_DateTime])
                  [mk_QgsField "time" QVariant_DateTime]
                  (mk_tp true 1 "time")]> ls)
        (reg ++ [r])
        (cs ++ [ Call_QgsVectorLayer "Point" "points_3" "memory" r;
                 Call_dataProvider r;
                 Call_addAttributes r [mk_QgsField "time" QVariant_DateTime];
                 Call_updateFields r;
                 Call_temporalProperties r;
                 Call_setIsActive r true;
                 Call_setMode r 1;
                 Call_setStartField r "time";
                 Call_updateFields r;
                 Call_QgsProject_instance;
                 Call_addMapLayer r ]))).
Proof.
  pose proof (fresh_ref_not_registered (mk_host ls reg cs)) as Hr.
  simpl in Hr. qgis_unfold.
  generalize dependent (fresh_ref (mk_host ls reg cs)). intros r Hr.
  qgis_exec.
  rewrite bool_decide_eq_false_2 by exact Hr.
  rewrite <- !app_assoc. reflexivity.
Qed.

Lemma run_total (s : state) : fst (run s) = Ok tt.
Proof. destruct s as [g [ls reg cs]]. rewrite run_eq. reflexivity. Qed.

Lemma configured_layer_ok :
  temporal_point_layer
    (mk_layer "Point" "points_3" "memory" (Some [time_field]) [time_field]
       (mk_tp true 1 "time")).
Proof.
  unfold temporal_point_layer; simpl.
  repeat split. apply list_elem_of_here.
Qed.

(** C1. After one run, from any console state, the project's registry
    holds exactly one more layer: a layer object that did not exist and
    was not registered before, a memory point layer labelled [points_3]
    whose field list includes the datetime field [time] and whose
    temporal configuration is active, in mode 1 (single field with
    datetime), with start field [time].  No other layer object changes. *)
Theorem one_run_registers_one_temporal_layer (s : state) :
  let r := fresh_ref (qgis s) in
  let s' := snd (run s) in
  fst (run s) = Ok tt ∧
  (r ∉ registry (qgis s)) ∧
  layers (qgis s) !! r = None ∧
  registry (qgis s') = registry (qgis s) ++ [r] ∧
  (∀ r', r' ≠ r → layers (qgis s') !! r' = layers (qgis s) !! r') ∧
  ∃ L, layers (qgis s') !! r = Some L ∧
       temporal_point_layer L ∧
       field_type <$> filter (fun f => field_name f = "time") (l_fields L)
         = [QVariant_DateTime].
Proof.
  intros r s'. subst r s'.
  pose proof (fresh_ref_not_registered (qgis s)) as Hreg.
  pose proof (fresh_ref_not_alive (qgis s)) as Hnew.
  destruct s as [g [ls reg cs]]. rewrite run_eq. simpl in *.
  repeat split; try assumption.
  - intros r' Hne. rewrite lookup_insert_ne by done. reflexivity.
  - eexists. rewrite lookup_insert_eq.
    split; [reflexivity|]. split; [apply configured_layer_ok | reflexivity].
Qed.

Lemma new_calls_eq (s : state) :
  let r := fresh_ref (qgis s) in
  new_calls s =
  [ Call_QgsVectorLayer "Point" "points_3" "memory" r;
    Call_dataProvider r;
    Call_addAttributes r [time_field];
    Call_updateFields r;
    Call_temporalProperties r;
    Call_setIsActive r true;
    Call_setMode r 1;
    Call_setStartField r "time";
    Call_updateFields r;
    Call_QgsProject_instance;
    Call_addMapLayer r ].
Proof.
  destruct s as [g [ls reg cs]]. unfold new_calls. rewrite run_eq. simpl.
  rewrite drop_app_length. reflexivity.
Qed.

(** C8. The calls one run makes, in order: the layer is built, exactly
    one [addAttributes] call adds exactly one field, [updateFields]
    follows, the three temporal settings are made, [updateFields] is
    called a second and last time, and [addMapLayer] ends the run.  The
    layer ends up with the single field [time]. *)
Theorem one_field_two_commits_then_registered (s : state) :
  let r := fresh_ref (qgis s) in
  let s' := snd (run s) in
  calls (qgis s') = calls (qgis s) ++ new_calls s ∧
  new_calls s =
    [ Call_QgsVectorLayer "Point" "points_3" "memory" r;
      Call_dataProvider r;
      Call_addAttributes r [time_field];
      Call_updateFields r;
      Call_temporalProperties r;
      Call_setIsActive r true;
      Call_setMode r 1;
      Call_setStartField r "time";
      Call_updateFields r;
      Call_QgsProject_instance;
      Call_addMapLayer r ] ∧
  count_calls is_addAttributes (new_calls s) = 1 ∧
  count_calls is_updateFields (new_calls s) = 2 ∧
  last (new_calls s) = Some (Call_addMapLayer r) ∧
  ∃ L, layers (qgis s') !! r = Some L ∧
       l_provider L = Some [time_field] ∧ l_fields L = [time_field].
Proof.
  intros r s'. subst r s'.
  pose proof (new_calls_eq s) as Hn. cbv zeta in Hn. rewrite Hn.
  split.
  { destruct s as [g [ls reg cs]]. rewrite run_eq. reflexivity. }
  split; [reflexivity|].
  split; [reflexivity|].
  split; [reflexivity|].
  split; [reflexivity|].
  destruct s as [g [ls reg cs]]. rewrite run_eq. simpl.
  eexists. rewrite lookup_insert_eq. repeat split.
Qed.

Lemma run_prefix_ge (k : nat) (s : state) : 10 ≤ k → run_prefix k s = run s.
Proof.
  intros Hk. unfold run_prefix, run.
  rewrite take_ge; [reflexivity | simpl; lia].
Qed.

(** Along the whole run the new layer never carries a temporal setting
    without having [time] in its field list. *)
Lemma temporal_config_needs_time (s : state) (k : nat) (L : layer) :
  layers (qgis (snd (run_prefix k s))) !! fresh_ref (qgis s) = Some L →
  l_temporal L ≠ default_temporal → time_field ∈ l_fields L.
Proof.
  pose proof (fresh_ref_not_alive (qgis s)) as Hnew.
  destruct s as [g [ls reg cs]].
  destruct (decide (10 ≤ k)) as [Hk|Hk].
  - rewrite run_prefix_ge by exact Hk. rewrite run_eq. simpl in *.
    rewrite lookup_insert_eq. intros [= <-] _. apply list_elem_of_here.
  - cbn [qgis layers] in Hnew. revert Hnew.
    do 10 (destruct k as [|k];
           [ qgis_unfold; generalize (fresh_ref (mk_host ls reg cs));
             intros r Hnew; qgis_exec; cbv [time_field];
             first [ rewrite Hnew; discriminate
                   | intros [= <-]; cbn;
                     first [ intros Hc; exfalso; apply Hc; reflexivity
                           | intros _; apply list_elem_of_here ] ]
           | ]).
    lia.
Qed.

(** The state in which [tp.setIsActive(True)] is about to run. *)
Lemma state_at_activation (g : gmap string pyval) (ls : gmap nat layer)
    (reg : list nat) (cs : list call) :
  let r := fresh_ref (mk_host ls reg cs) in
  run_prefix 5 (mk_state g (mk_host ls reg cs)) =
  (Ok tt,
   mk_state
     (<["tp" := PyTemporal r]>
        (<["pr" := PyProvider r]> (<["vlayer" := PyLayer r]> g)))
     (mk_host
        (<[r := mk_layer "Point" "points_3" "memory"
                  (Some [time_field]) [time_field] default_temporal]> ls)
        reg
        (((((cs ++ [Call_QgsVectorLayer "Point" "points_3" "memory" r]) ++
            [Call_dataProvider r]) ++
           [Call_addAttributes r [time_field]]) ++
          [Call_updateFields r]) ++
         [Call_temporalProperties r]))).
Proof.
  qgis_unfold. generalize (fresh_ref (mk_host ls reg cs)). intros r.
  qgis_exec. reflexivity.
Qed.

(** C5. The sixth statement of the script is the activation
    [tp.setIsActive(True)].  The five statements before it complete, and
    in the state they leave, [tp] is the temporal configuration of the
    new layer, still untouched, while [time] is already both in the
    provider's fields and in the layer's field list.  At every point of
    the run, a layer with any temporal setting has [time] in its field
    list; and in the call log every temporal-configuration call comes
    after the [addAttributes] call and a later [updateFields] call. *)
Theorem time_field_committed_before_temporal_steps (s : state) :
  let r := fresh_ref (qgis s) in
  let s5 := snd (run_prefix 5 s) in
  create_temporal_layer !! 5 = Some stmt_setIsActive ∧
  fst (run_prefix 5 s) = Ok tt ∧
  globals s5 !! "tp" = Some (PyTemporal r) ∧
  (∃ L, layers (qgis s5) !! r = Some L ∧
        l_provider L = Some [time_field] ∧
        time_field ∈ l_fields L ∧
        l_temporal L = default_temporal) ∧
  (∀ k L, layers (qgis (snd (run_prefix k s))) !! r = Some L →
          l_temporal L ≠ default_temporal → time_field ∈ l_fields L) ∧
  (∀ i c, new_calls s !! i = Some c → temporal_step c = true →
          ∃ j k, j < k < i ∧
                 new_calls s !! j = Some (Call_addAttributes r [time_field]) ∧
                 new_calls s !! k = Some (Call_updateFields r)).
Proof.
  intros r s5. subst r s5.
  split; [reflexivity|].
  split; [destruct s as [g [ls reg cs]]; rewrite state_at_activation; reflexivity|].
  split.
  { destruct s as [g [ls reg cs]]. rewrite state_at_activation. simpl.
    apply lookup_insert_eq. }
  split.
  { destruct s as [g [ls reg cs]]. rewrite state_at_activation. simpl.
    eexists. rewrite lookup_insert_eq. split; [reflexivity|].
    split; [reflexivity|]. split; [apply list_elem_of_here | reflexivity]. }
  split; [intros k L; apply temporal_config_needs_time|].
  pose proof (new_calls_eq s) as Hn. cbv zeta in Hn. rewrite Hn.
  intros i c Hi Hc. exists 2, 3.
  do 11 (destruct i as [|i];
         [ injection Hi as <-; first [ discriminate Hc | repeat split; lia ] | ]).
  discriminate Hi.
Qed.

Lemma run_registry (s : state) :
  registry (qgis (snd (run s))) = registry (qgis s) ++ [fresh_ref (qgis s)].
Proof. destruct s as [g [ls reg cs]]. rewrite run_eq. reflexivity. Qed.

Lemma run_other_layers (s : state) (r' : nat) :
  r' ≠ fresh_ref (qgis s) →
  layers (qgis (snd (run s))) !! r' = layers (qgis s) !! r'.
Proof.
  destruct s as [g [ls reg cs]]. rewrite run_eq. simpl. intros Hne.
  rewrite lookup_insert_ne by done. reflexivity.
Qed.

Lemma run_new_layer (s : state) :
  ∃ L, layers (qgis (snd (run s))) !! fresh_ref (qgis s) = Some L ∧
       temporal_point_layer L.
Proof.
  destruct s as [g [ls reg cs]]. rewrite run_eq. simpl.
  eexists. rewrite lookup_insert_eq. split; [reflexivity|].
  apply configured_layer_ok.
Qed.

Lemma fresh_ref_after_run (s : state) :
  fresh_ref (qgis (snd (run s))) ≠ fresh_ref (qgis s).
Proof.
  pose proof (fresh_ref_not_registered (qgis (snd (run s)))) as Hf.
  destruct s as [g [ls reg cs]]. rewrite run_eq in *. simpl in *.
  intros Heq. apply Hf. rewrite Heq. set_solver.
Qed.

(** C7. Two runs in a row both complete; they build two distinct layer
    objects, neither known to the project before, and the registry grows
    by exactly these two, in order.  Both objects carry the full
    configuration, the second run leaves the first object as the first
    run made it, and the second object did not exist before the second
    run. *)
Theorem two_runs_two_independent_layers (s : state) :
  let s1 := snd (run s) in
  let s2 := snd (run s1) in
  let r1 := fresh_ref (qgis s) in
  let r2 := fresh_ref (qgis s1) in
  fst (run s) = Ok tt ∧ fst (run s1) = Ok tt ∧
  r1 ≠ r2 ∧
  (r1 ∉ registry (qgis s)) ∧ (r2 ∉ registry (qgis s)) ∧
  registry (qgis s2) = registry (qgis s) ++ [r1; r2] ∧
  layers (qgis s1) !! r2 = None ∧
  layers (qgis s2) !! r1 = layers (qgis s1) !! r1 ∧
  ∃ L1 L2, layers (qgis s2) !! r1 = Some L1 ∧
           layers (qgis s2) !! r2 = Some L2 ∧
           temporal_point_layer L1 ∧ temporal_point_layer L2.
Proof.
  intros s1 s2 r1 r2. subst s2 r1 r2 s1.
  pose proof (fresh_ref_after_run s) as Hne.
  pose proof (fresh_ref_not_registered (qgis s)) as Hr1.
  pose proof (fresh_ref_not_registered (qgis (snd (run s)))) as Hr2.
  pose proof (fresh_ref_not_alive (qgis (snd (run s)))) as Hnew2.
  pose proof (run_registry s) as Hreg1.
  pose proof (run_registry (snd (run s))) as Hreg2.
  pose proof (run_new_layer s) as (L1 & HL1 & HC1).
  pose proof (run_new_layer (snd (run s))) as (L2 & HL2 & HC2).
  pose proof (run_other_layers (snd (run s)) _ (not_eq_sym Hne)) as Hkeep.
  split; [apply run_total|]. split; [apply run_total|].
  split; [intros Heq; apply Hne; symmetry; exact Heq|].
  split; [exact Hr1|].
  split; [rewrite Hreg1 in Hr2; set_solver|].
  split; [rewrite Hreg2, Hreg1, <- app_assoc; reflexivity|].
  split; [exact Hnew2|].
  split; [exact Hkeep|].
  exists L1, L2. rewrite Hkeep. auto.
Qed.

(** *** Further properties of the script *)

(** X1. After a run the console variables [vlayer], [pr] and [tp] refer
    to the layer the run registered last, to its data provider and to its
    temporal configuration; every other console variable is as before. *)
Theorem console_variables_after_run (s : state) :
  let r := fresh_ref (qgis s) in
  let s' := snd (run s) in
  globals s' !! "vlayer" = Some (PyLayer r) ∧
  globals s' !! "pr" = Some (PyProvider r) ∧
  globals s' !! "tp" = Some (PyTemporal r) ∧
  last (registry (qgis s')) = Some r ∧
  (∀ x : string, x ≠ "vlayer" → x ≠ "pr" → x ≠ "tp" →
                 globals s' !! x = globals s !! x).
Proof.
  intros r s'. subst r s'.
  destruct s as [g [ls reg cs]]. rewrite run_eq. simpl.
  split; [rewrite lookup_insert_ne, lookup_insert_ne by done;
          apply lookup_insert_eq|].
  split; [rewrite lookup_insert_ne by done; apply lookup_insert_eq|].
  split; [apply lookup_insert_eq|].
  split; [apply last_snoc|].
  intros x H1 H2 H3.
  rewrite !lookup_insert_ne by done. reflexivity.
Qed.


Lemma run_keeps_layers (s : state) (r : nat) (L : layer) :
  layers (qgis s) !! r = Some L →
  layers (qgis (snd (run s))) !! r = Some L.
Proof.
  intros H. rewrite run_other_layers; [exact H|].
  intros ->. rewrite fresh_ref_not_alive in H. discriminate.
Qed.

Lemma run_times_S (n : nat) (s : state) :
  run_times (S n) s = run_times n (snd (run s)).
Proof.
  pose proof (run_total s) as Ht. simpl.
  destruct (run s) as [[[]|e] s']; [reflexivity | discriminate Ht].
Qed.

(** X3. Run [n] times in a row, the script completes every time and the
    registry grows by exactly [n] references, neither registered before
    nor equal to one another; each refers to a fully configured layer,
    and every layer object that existed before is unchanged. *)
Theorem n_runs_register_n_layers (n : nat) (s : state) :
  let s' := snd (run_times n s) in
  fst (run_times n s) = Ok tt ∧
  ∃ new : list nat,
    registry (qgis s') = registry (qgis s) ++ new ∧
    length new = n ∧
    NoDup new ∧
    (∀ r, r ∈ new → r ∉ registry (qgis s)) ∧
    (∀ r, r ∈ new → layers (qgis s) !! r = None) ∧
    (∀ r, r ∈ new → ∃ L, layers (qgis s') !! r = Some L ∧
                         temporal_point_layer L) ∧
    (∀ r L, layers (qgis s) !! r = Some L → layers (qgis s') !! r = Some L).
Proof.
  cbv zeta. revert s. induction n as [|n IH]; intros s.
  - simpl. split; [reflexivity|]. exists [].
    rewrite app_nil_r.
    repeat split; try (intros r Hr; apply elem_of_nil in Hr; contradiction).
    + constructor.
    + auto.
  - rewrite run_times_S.
    destruct (IH (snd (run s)))
      as (Hok & new & Hreg & Hlen & Hnd & Hfresh & Hnone & Hconf & Hkeep).
    split; [exact Hok|].
    pose proof (run_registry s) as Hreg1.
    pose proof (fresh_ref_not_registered (qgis s)) as Hr1.
    pose proof (fresh_ref_not_alive (qgis s)) as Ha1.
    destruct (run_new_layer s) as (L1 & HL1 & HC1).
    exists (fresh_ref (qgis s) :: new).
    split; [rewrite Hreg, Hreg1, <- app_assoc; reflexivity|].
    split; [simpl; rewrite Hlen; reflexivity|].
    split.
    { constructor; [|exact Hnd]. intros Hin. apply (Hfresh _ Hin).
      rewrite Hreg1. apply elem_of_app. right. apply list_elem_of_here. }
    split.
    { intros r Hr. apply elem_of_cons in Hr as [->|Hr]; [exact Hr1|].
      intros Hin. apply (Hfresh _ Hr). rewrite Hreg1.
      apply elem_of_app. left. exact Hin. }
    split.
    { intros r Hr. apply elem_of_cons in Hr as [->|Hr]; [exact Ha1|].
      pose proof (Hnone _ Hr) as Hn.
      rewrite run_other_layers in Hn; [exact Hn|].
      intros ->. rewrite HL1 in Hn. discriminate. }
    split.
    { intros r Hr. apply elem_of_cons in Hr as [->|Hr].
      - exists L1. split; [apply Hkeep; exact HL1 | exact HC1].
      - apply Hconf. exact Hr. }
    intros r L HL. apply Hkeep. apply run_keeps_layers. exact HL.
Qed.

(** Before its last statement the script leaves the registry alone. *)
Lemma registry_before_last_statement (s : state) (k : nat) :
  k < 10 → registry (qgis (snd (run_prefix k s))) = registry (qgis s).
Proof.
  intros Hk. destruct s as [g [ls reg cs]].
  do 10 (destruct k as [|k]; [ qgis_exec; reflexivity | ]).
  lia.
Qed.

(** X4. The project never sees a half-built layer: at every point of the
    run, a layer that is in the registry and was not there before the
    run is fully configured, since [addMapLayer] is the last statement. *)
Theorem registered_only_when_configured (s : state) (k r : nat) :
  r ∈ registry (qgis (snd (run_prefix k s))) →
  r ∉ registry (qgis s) →
  ∃ L, layers (qgis (snd (run_prefix k s))) !! r = Some L ∧
       temporal_point_layer L.
Proof.
  intros Hin Hnew.
  destruct (decide (k < 10)) as [Hk|Hk].
  - rewrite registry_before_last_statement in Hin by exact Hk. contradiction.
  - rewrite run_prefix_ge in * by lia.
    rewrite run_registry in Hin.
    apply elem_of_app in Hin as [Hin|Hin]; [contradiction|].
    apply list_elem_of_singleton in Hin. subst r. apply run_new_layer.
Qed.

(** X4 on an empty project: after the last statement the new layer is
    registered, and it is configured. *)
Lemma registered_only_when_configured_witness :
  0 ∈ registry (qgis (snd (run_prefix 10 empty_console))) ∧
  (0 ∉ registry (qgis empty_console)) ∧
  ∃ L, layers (qgis (snd (run_prefix 10 empty_console))) !! 0 = Some L ∧
       temporal_point_layer L.
Proof.
  assert (H1 : 0 ∈ registry (qgis (snd (run_prefix 10 empty_console))))
    by (apply list_elem_of_In; vm_compute; tauto).
  assert (H2 : 0 ∉ registry (qgis empty_console))
    by apply not_elem_of_nil.
  split; [exact H1|]. split; [exact H2|].
  exact (registered_only_when_configured empty_console 10 0 H1 H2).
Defined.

(** X5. The first [updateFields] is what brings [time] into the layer's
    field list; the second one, after the temporal settings, changes no
    layer object at all. *)
Theorem second_updateFields_changes_nothing (s : state) :
  let r := fresh_ref (qgis s) in
  (∃ L, layers (qgis (snd (run_prefix 3 s))) !! r = Some L ∧ l_fields L = []) ∧
  (∃ L, layers (qgis (snd (run_prefix 4 s))) !! r = Some L ∧
        l_fields L = [time_field]) ∧
  create_temporal_layer !! 8 = Some stmt_updateFields ∧
  layers (qgis (snd (run_prefix 9 s))) = layers (qgis (snd (run_prefix 8 s))) ∧
  registry (qgis (snd (run_prefix 9 s))) = registry (qgis (snd (run_prefix 8 s))).
Proof.
  cbv zeta. destruct s as [g [ls reg cs]].
  qgis_unfold. generalize (fresh_ref (mk_host ls reg cs)). intros r.
  qgis_exec.
  split; [eexists; split; reflexivity|].
  split; [eexists; split; reflexivity|].
  repeat split.
Qed.

End LayerInitializer.

(** * Properties of the Trip Row Importer *)

Module TripRowImporter.
Import Py ImportRowsToMemory.

(** Both classes of the clause derive from [Exception]: the handler
    takes exactly the instances of [Exception]. *)
Lemma handler_matches_Exception (e : exn) :
  handler_matches e = isinstance_Exception e.
Proof.
  unfold handler_matches, isinstance_Exception, isinstance_psycopg2_Error.
  destruct (exn_class e); reflexivity.
Qed.

Lemma server_answer_fixed (w : world) :
  server_answer w "SELECT trip FROM trips_test" =
  Some ((fun v => [v]) <$> trips_test w).
Proof. reflexivity. Qed.

Lemma fresh_connection_new (cn : gmap nat connection) :
  cn !! fresh (dom cn) = None.
Proof. apply not_elem_of_dom, is_fresh. Qed.

(** *** Symbolic execution *)

(** The result of one statement on a given state. *)
Ltac eval_stmt t :=
  eval cbv beta iota zeta delta
    [bind ret raise
     stmt_import_psycopg2 stmt_import_register stmt_canvas
     stmt_temporalController stmt_currentFrameNumber stmt_connection_None
     stmt_connect stmt_autocommit stmt_register stmt_cursor
     stmt_select_query stmt_dtrange stmt_execute stmt_rows
     stmt_print_error stmt_close
     import_module iface_mapCanvas temporalController currentFrameNumber
     dateTimeRangeForFrameNumber connect set_autocommit register
     connection_cursor cursor_execute cursor_fetchall connection_close
     print2 external truthy str
     assign unbind name log write_line get_connection put_connection
     get_cursor put_cursor attribute_error type_error interface_error
     globals stdout connections cursors calls
     fault frame_number frame_range
     c_closed c_autocommit c_registered k_connection k_result] in t.

Ltac imp_lookup :=
  match goal with
  | |- context [ @lookup _ _ _ _ ?j (@insert _ _ _ _ ?j ?v ?m) ] =>
      rewrite (lookup_insert_eq m j v)
  | |- context [ @lookup _ _ _ _ ?j (@insert _ _ _ _ ?i ?v ?m) ] =>
      rewrite (lookup_insert_ne m i j v) by done
  | |- context [ @lookup _ _ _ _ ?j (@delete _ _ _ ?i ?m) ] =>
      rewrite (lookup_delete_ne m i j) by done
  | |- context [ server_answer ?w "SELECT trip FROM trips_test" ] =>
      rewrite (server_answer_fixed w)
  end.

Ltac settle :=
  cbv beta iota; repeat (imp_lookup; cbv beta iota).

(** One step: settle an equation between results, use or split what the
    world says of the next external call, run the next statement of a
    suite, or open the next compound statement. *)
Ltac step flt :=
  first
    [ lazymatch goal with
      | |- (_, _) = _ → _ =>
          let H := fresh "H" in intros H; simplify_eq
      end
    | match goal with
      | H : flt ?st = _ |- context [flt ?st] => rewrite H; settle
      | H : handler_matches ?e = _ |- context [handler_matches ?e] =>
          rewrite H; settle
      end
    | match goal with
      | |- context [exec_block (?c :: ?b) (mk_state ?g ?o ?cn ?cu ?cs)] =>
          let s := constr:(mk_state g o cn cu cs) in
          let r := eval_stmt (c s) in
          change (exec_block (c :: b) s)
            with (match r with
                  | (Ok _, s') => exec_block b s'
                  | (Raise e, s') => (Raise e, s')
                  end);
          settle
      end
    | match goal with
      | |- context [exec_block [] (mk_state ?g ?o ?cn ?cu ?cs)] =>
          let s := constr:(mk_state g o cn cu cs) in
          change (exec_block [] s) with (Ok tt, s); settle
      end
    | match goal with
      | |- context [flt ?st] =>
          destruct (flt st) as [?e|] eqn:?; settle
      | |- context [handler_matches ?e] =>
          destruct (handler_matches e) eqn:?; settle
      end
    | progress (unfold stmt_try, try_except_finally, try_body, handler,
                cleanup, prelude)
    | lazymatch goal with
      | |- _ → _ => fail
      | |- _ =>
          progress (unfold new_calls, new_output, run,
                    import_rows_to_memory, prelude; cbn [app])
      end ].

Ltac explore flt := repeat (step flt).

Ltac open_run :=
  unfold new_calls, new_output, run, import_rows_to_memory, prelude;
  cbn [app].

Ltac finish_log :=
  cbn [calls stdout globals connections cursors fst snd fault trips_test];
  rewrite <- ?app_assoc; rewrite ?drop_app_length; rewrite ?drop_all;
  cbn [app opened_connections closed_connections executed_queries omap
       list_omap].

(** *** What every run does to the connection *)

Lemma run_connection_discipline (w : world) (s : state)
    (r : result unit * state) :
  run w s = r →
  let new := drop (length (calls s)) (calls (snd r)) in
  closed_connections new = opened_connections new ∧
  length (opened_connections new) ≤ 1 ∧
  (∀ c, c ∈ opened_connections new → connections s !! c = None) ∧
  (fault w Site_close = None →
   ∀ c, c ∈ opened_connections new →
        ∃ x, connections (snd r) !! c = Some x ∧ c_closed x = true).
Proof.
  destruct w as [flt fn fr tt]. destruct s as [g out cn cu cs].
  open_run. explore flt.
  all: cbv zeta; finish_log.
  all: split; [reflexivity|]; split; [simpl; lia|].
  all: split;
    [ intros c Hc
    | intros Hclose c Hc; try congruence ].
  all: first [ apply elem_of_nil in Hc; contradiction
             | apply list_elem_of_singleton in Hc; subst c ].
  all: first [ apply fresh_connection_new
             | rewrite lookup_insert_eq; eexists; split; reflexivity ].
Qed.

(** C3. Whatever the world does, the connections one run closes are
    exactly the connections it opened, in the same order and each once;
    a run opens at most one connection, a new one; and unless the close
    call itself raises, that connection is closed when the run ends. *)
Theorem opened_connection_closed_exactly_once (w : world) (s : state) :
  closed_connections (new_calls w s) = opened_connections (new_calls w s) ∧
  length (opened_connections (new_calls w s)) ≤ 1 ∧
  (∀ c, c ∈ opened_connections (new_calls w s) → connections s !! c = None) ∧
  (fault w Site_close = None →
   ∀ c, c ∈ opened_connections (new_calls w s) →
        ∃ x, connections (snd (run w s)) !! c = Some x ∧ c_closed x = true).
Proof. exact (run_connection_discipline w s (run w s) eq_refl). Qed.

(** *** The query and the time range *)

Lemma run_executes_fixed_query (w : world) (s : state)
    (r : result unit * state) :
  run w s = r →
  let new := drop (length (calls s)) (calls (snd r)) in
  executed_queries new = [] ∨
  executed_queries new = [("SELECT trip FROM trips_test", None)].
Proof.
  destruct w as [flt fn fr tt]. destruct s as [g out cn cu cs].
  open_run. explore flt.
  all: cbv zeta; finish_log.
  all: first [ left; reflexivity | right; reflexivity ].
Qed.

Lemma run_ignores_frame_range (flt : site → option exn) (fn : Z)
    (f1 f2 : Z → QgsDateTimeRange) (tt : list (option string))
    (s : state) (r1 r2 : result unit * state) :
  run (mk_world flt fn f1 tt) s = r1 →
  run (mk_world flt fn f2 tt) s = r2 →
  fst r1 = fst r2 ∧
  calls (snd r1) = calls (snd r2) ∧
  stdout (snd r1) = stdout (snd r2) ∧
  connections (snd r1) = connections (snd r2) ∧
  globals (snd r1) !! "rows" = globals (snd r2) !! "rows".
Proof.
  destruct s as [g out cn cu cs].
  open_run. explore flt.
  all: cbn [fst snd calls stdout connections globals].
  all: repeat split.
  all: repeat imp_lookup; reflexivity.
Qed.

(** C4. Every statement a run sends to the server is the text
    [SELECT trip FROM trips_test], without parameters, and at most one
    is sent.  Two worlds that differ only in the date-time range of the
    frames give the same executed statements, the same calls, the same
    outcome, the same output and the same [rows]. *)
Theorem executed_query_fixed_and_time_range_blind
    (w : world) (s : state) (f1 f2 : Z → QgsDateTimeRange) :
  (∀ q p, (q, p) ∈ executed_queries (new_calls w s) →
          q = "SELECT trip FROM trips_test" ∧ p = None) ∧
  length (executed_queries (new_calls w s)) ≤ 1 ∧
  executed_queries (new_calls (with_frame_range w f1) s) =
    executed_queries (new_calls (with_frame_range w f2) s) ∧
  new_calls (with_frame_range w f1) s = new_calls (with_frame_range w f2) s ∧
  fst (run (with_frame_range w f1) s) = fst (run (with_frame_range w f2) s) ∧
  new_output (with_frame_range w f1) s = new_output (with_frame_range w f2) s ∧
  globals (snd (run (with_frame_range w f1) s)) !! "rows" =
    globals (snd (run (with_frame_range w f2) s)) !! "rows".
Proof.
  pose proof (run_executes_fixed_query w s (run w s) eq_refl) as Hq.
  cbv zeta in Hq. fold (new_calls w s) in Hq.
  pose proof (run_ignores_frame_range (fault w) (frame_number w) f1 f2
                (trips_test w) s _ _ eq_refl eq_refl)
    as (Ho & Hc & Hout & _ & Hrows).
  fold (with_frame_range w f1) in Ho, Hc, Hout, Hrows.
  fold (with_frame_range w f2) in Ho, Hc, Hout, Hrows.
  assert (Hnew : new_calls (with_frame_range w f1) s =
                 new_calls (with_frame_range w f2) s).
  { unfold new_calls. rewrite Hc. reflexivity. }
  split.
  { intros q p Hin. destruct Hq as [Hq|Hq]; rewrite Hq in Hin.
    - apply elem_of_nil in Hin. contradiction.
    - apply list_elem_of_singleton in Hin. injection Hin as -> ->. auto. }
  split.
  { destruct Hq as [Hq|Hq]; rewrite Hq; simpl; lia. }
  split; [rewrite Hnew; reflexivity|].
  split; [exact Hnew|].
  split; [exact Ho|].
  split; [unfold new_output; rewrite Hout; reflexivity|exact Hrows].
Qed.

(** *** The shape of a run: prelude, then the try statement *)

(** A suite made of two parts runs the second part after the first,
    unless the first raises. *)
Lemma exec_block_app {St : Type} (b1 b2 : list (stmt St)) (s : St) :
  exec_block (b1 ++ b2) s =
  match exec_block b1 s with
  | (Ok _, s') => exec_block b2 s'
  | (Raise e, s') => (Raise e, s')
  end.
Proof.
  revert s; induction b1 as [|c b1 IH]; intros s; simpl.
  - reflexivity.
  - unfold bind. destruct (c s) as [[[]|e] s']; [apply IH | reflexivity].
Qed.

Lemma run_after_prelude (w : world) (s s0 : state) :
  exec_block (prelude w) s = (Ok tt, s0) → run w s = stmt_try w s0.
Proof.
  intros H. unfold run, import_rows_to_memory.
  rewrite exec_block_app, H. simpl. unfold bind, ret.
  destruct (stmt_try w s0) as [[[]|e] s']; reflexivity.
Qed.

Lemma run_prelude_raises (w : world) (s s' : state) (e : exn) :
  exec_block (prelude w) s = (Raise e, s') → run w s = (Raise e, s').
Proof.
  intros H. unfold run, import_rows_to_memory.
  rewrite exec_block_app, H. reflexivity.
Qed.

Lemma stmt_try_raise (w : world) (s0 s1 : state) (e : exn) :
  exec_block (try_body w) s0 = (Raise e, s1) →
  stmt_try w s0 =
  (let '(o2, s2) :=
     if handler_matches e then exec_block (handler e) s1
     else (Raise e, s1) in
   let '(o3, s3) := exec_block (cleanup w) s2 in
   match o3 with
   | Ok _ => (o2, s3)
   | Raise e' => (Raise e', s3)
   end).
Proof. intros H. unfold stmt_try, try_except_finally. rewrite H. reflexivity. Qed.

Lemma stmt_try_ok (w : world) (s0 s1 : state) :
  exec_block (try_body w) s0 = (Ok tt, s1) →
  stmt_try w s0 =
  (let '(o3, s3) := exec_block (cleanup w) s1 in
   match o3 with
   | Ok _ => (Ok tt, s3)
   | Raise e' => (Raise e', s3)
   end).
Proof. intros H. unfold stmt_try, try_except_finally. rewrite H. reflexivity. Qed.

(** The statements before the try block raise exactly what the world
    raises first at their call sites, and so do the statements of the try
    block: nothing else can go wrong in them. *)
Lemma prelude_outcome (w : world) (s : state) :
  fst (exec_block (prelude w) s) =
  match first_fault w prelude_sites with
  | Some e => Raise e
  | None => Ok tt
  end.
Proof.
  destruct w as [flt fn fr tt]. destruct s as [g out cn cu cs].
  cbn [first_fault prelude_sites fault].
  explore flt.
  all: reflexivity.
Qed.

Lemma try_body_outcome (w : world) (s s0 : state) :
  exec_block (prelude w) s = (Ok tt, s0) →
  fst (exec_block (try_body w) s0) =
  match first_fault w try_sites with
  | Some e => Raise e
  | None => Ok tt
  end.
Proof.
  destruct w as [flt fn fr tt]. destruct s as [g out cn cu cs].
  cbn [first_fault try_sites fault].
  explore flt.
  all: reflexivity.
Qed.

(** *** Faults inside the try block *)

Lemma rows_after_raise (w : world) (s s0 s1 : state) (e : exn)
    (r : result unit * state) :
  exec_block (prelude w) s = (Ok tt, s0) →
  exec_block (try_body w) s0 = (Raise e, s1) →
  run w s = r →
  globals s1 !! "rows" = globals s !! "rows" ∧
  globals (snd r) !! "rows" = globals s !! "rows".
Proof.
  intros H1 H2. rewrite (run_after_prelude _ _ _ H1), (stmt_try_raise _ _ _ _ H2).
  revert H1 H2.
  destruct w as [flt fn fr tt]. destruct s as [g out cn cu cs].
  explore flt.
  all: cbn [fst snd globals].
  all: repeat imp_lookup.
  all: split; reflexivity.
Qed.

(** C9. When a statement of the try block raises, whatever the
    exception, no assignment to [rows] has happened: the variable is
    bound after the failure, and at the end of the run, exactly as it
    was before the run.  A run that starts without [rows] ends without
    it. *)
Theorem rows_never_assigned_when_try_raises
    (w : world) (s s0 s1 : state) (e : exn) :
  exec_block (prelude w) s = (Ok tt, s0) →
  exec_block (try_body w) s0 = (Raise e, s1) →
  globals s1 !! "rows" = globals s !! "rows" ∧
  globals (snd (run w s)) !! "rows" = globals s !! "rows" ∧
  (globals s !! "rows" = None → globals (snd (run w s)) !! "rows" = None).
Proof.
  intros H1 H2.
  destruct (rows_after_raise w s s0 s1 e _ H1 H2 eq_refl) as [Ha Hb].
  split; [exact Ha|]. split; [exact Hb|].
  intros Hn. rewrite Hb. exact Hn.
Qed.

Lemma matched_fault_run (w : world) (s s0 s1 : state) (e : exn)
    (r : result unit * state) :
  exec_block (prelude w) s = (Ok tt, s0) →
  exec_block (try_body w) s0 = (Raise e, s1) →
  handler_matches e = true →
  run w s = r →
  let new := drop (length (calls s)) (calls (snd r)) in
  drop (length (stdout s)) (stdout (snd r)) = [error_line e] ∧
  closed_connections new =
    match globals s1 !! "connection" with
    | Some (PyConnection c) => [c]
    | _ => []
    end ∧
  closed_connections new = opened_connections new ∧
  fst r =
    match closed_connections new, fault w Site_close with
    | _ :: _, Some e' => Raise e'
    | _, _ => Ok tt
    end.
Proof.
  intros H1 H2 Hm.
  rewrite (run_after_prelude _ _ _ H1), (stmt_try_raise _ _ _ _ H2), Hm.
  clear Hm. revert H1 H2.
  destruct w as [flt fn fr tt]. destruct s as [g out cn cu cs].
  explore flt.
  all: cbv zeta; finish_log; repeat imp_lookup.
  all: repeat match goal with
              | H : ?f Site_close = _ |- context [?f Site_close] => rewrite H
              end.
  all: repeat split; reflexivity.
Qed.

(** C2, as the code has it.  Let a statement of the try block raise an
    exception [e] that the clause [(Exception, psycopg2.Error)] matches.
    Then the run prints exactly one line, the fixed prefix followed by
    [e]; the cleanup runs and calls [close] exactly on the connection
    the variable [connection] holds, and not at all when it still holds
    [None]; and [e] itself is not raised again: the run ends normally,
    unless that [close] call raises, in which case the exception of
    [close] ends the run. *)
Theorem matched_fault_printed_once_then_cleanup
    (w : world) (s s0 s1 : state) (e : exn) :
  exec_block (prelude w) s = (Ok tt, s0) →
  exec_block (try_body w) s0 = (Raise e, s1) →
  handler_matches e = true →
  new_output w s = [error_line e] ∧
  closed_connections (new_calls w s) =
    match globals s1 !! "connection" with
    | Some (PyConnection c) => [c]
    | _ => []
    end ∧
  closed_connections (new_calls w s) = opened_connections (new_calls w s) ∧
  fst (run w s) =
    match closed_connections (new_calls w s), fault w Site_close with
    | _ :: _, Some e' => Raise e'
    | _, _ => Ok tt
    end.
Proof.
  intros H1 H2 Hm.
  exact (matched_fault_run w s s0 s1 e (run w s) H1 H2 Hm eq_refl).
Qed.

(** An exception outside [Exception] raised in the try block is not
    handled: nothing is printed, the cleanup still closes what was
    opened, and the exception (or the one [close] raises) ends the
    run. *)
Lemma unmatched_exception_propagates (w : world) (s s0 s1 : state)
    (e : exn) (r : result unit * state) :
  exec_block (prelude w) s = (Ok tt, s0) →
  exec_block (try_body w) s0 = (Raise e, s1) →
  handler_matches e = false →
  run w s = r →
  let new := drop (length (calls s)) (calls (snd r)) in
  drop (length (stdout s)) (stdout (snd r)) = [] ∧
  closed_connections new = opened_connections new ∧
  fst r =
    match closed_connections new, fault w Site_close with
    | _ :: _, Some e' => Raise e'
    | _, _ => Raise e
    end.
Proof.
  intros H1 H2 Hm.
  rewrite (run_after_prelude _ _ _ H1), (stmt_try_raise _ _ _ _ H2), Hm.
  clear Hm. revert H1 H2.
  destruct w as [flt fn fr tt]. destruct s as [g out cn cu cs].
  explore flt.
  all: cbv zeta; finish_log; repeat imp_lookup.
  all: repeat match goal with
              | H : ?f Site_close = _ |- context [?f Site_close] => rewrite H
              end.
  all: repeat split; reflexivity.
Qed.

(** *** The success path *)

Lemma rows_after_success (w : world) (s s0 s1 : state)
    (r : result unit * state) :
  exec_block (prelude w) s = (Ok tt, s0) →
  exec_block (try_body w) s0 = (Ok tt, s1) →
  run w s = r →
  globals s1 !! "rows" = Some (PyList (row_of <$> trips_test w)) ∧
  globals (snd r) !! "rows" = Some (PyList (row_of <$> trips_test w)).
Proof.
  intros H1 H2. rewrite (run_after_prelude _ _ _ H1), (stmt_try_ok _ _ _ H2).
  revert H1 H2.
  destruct w as [flt fn fr tt]. destruct s as [g out cn cu cs].
  explore flt.
  all: cbn [fst snd globals trips_test].
  all: repeat imp_lookup.
  all: rewrite <- list_fmap_compose.
  all: split; reflexivity.
Qed.

(** C6. When the statements of the try block all complete, [rows] is
    bound, after the block and at the end of the run, to a list with one
    element per row of [trips_test], in the order of the table; the
    element for a row is a one-element tuple holding the decoded trip,
    or [None] where the column is null. *)
Theorem rows_hold_one_tuple_per_table_row (w : world) (s s0 s1 : state) :
  exec_block (prelude w) s = (Ok tt, s0) →
  exec_block (try_body w) s0 = (Ok tt, s1) →
  ∃ rows : list pyval,
    globals s1 !! "rows" = Some (PyList rows) ∧
    globals (snd (run w s)) !! "rows" = Some (PyList rows) ∧
    length rows = length (trips_test w) ∧
    ∀ i v, trips_test w !! i = Some v →
           rows !! i =
           Some (PyTuple [match v with Some t => PyTrip t | None => PyNone end]).
Proof.
  intros H1 H2.
  destruct (rows_after_success w s s0 s1 _ H1 H2 eq_refl) as [Ha Hb].
  exists (row_of <$> trips_test w).
  split; [exact Ha|]. split; [exact Hb|].
  split; [apply length_fmap|].
  intros i v Hi. rewrite list_lookup_fmap, Hi. reflexivity.
Qed.

(** *** Faults outside the try block *)

Lemma prelude_raise_is_silent (w : world) (s s' : state) (e : exn) :
  exec_block (prelude w) s = (Raise e, s') →
  stdout s' = stdout s ∧ connections s' = connections s ∧
  opened_connections (drop (length (calls s)) (calls s')) = [].
Proof.
  destruct w as [flt fn fr tt]. destruct s as [g out cn cu cs].
  explore flt.
  all: finish_log.
  all: repeat split; reflexivity.
Qed.

Lemma close_fault_ends_run (w : world) (s : state) (r : result unit * state)
    (e : exn) (c : nat) :
  run w s = r →
  Call_close c ∈ drop (length (calls s)) (calls (snd r)) →
  fault w Site_close = Some e →
  fst r = Raise e.
Proof.
  destruct w as [flt fn fr tt]. destruct s as [g out cn cu cs].
  open_run. explore flt.
  all: finish_log.
  all: intros Hin Hf.
  all: first [ congruence
             | exfalso; apply list_elem_of_In in Hin; simpl in Hin;
               intuition discriminate ].
Qed.

(** C10. The handler guards the try block only.  An exception raised by
    one of the calls before it (the two imports, the map canvas, the
    temporal controller, the current frame number) ends the run with that
    exception, whatever its class: nothing is printed and no connection
    is opened.  The same holds of any exception the statements before
    the try block raise.  An exception raised by the [close] call of the
    cleanup block ends the run with that exception. *)
Theorem faults_outside_try_propagate (w : world) (s : state) :
  (∀ e, first_fault w prelude_sites = Some e →
        fst (run w s) = Raise e ∧
        new_output w s = [] ∧
        opened_connections (new_calls w s) = []) ∧
  (∀ e s', exec_block (prelude w) s = (Raise e, s') →
           run w s = (Raise e, s') ∧
           new_output w s = [] ∧
           opened_connections (new_calls w s) = []) ∧
  (∀ e c, Call_close c ∈ new_calls w s →
          fault w Site_close = Some e →
          fst (run w s) = Raise e).
Proof.
  assert (Hsem : ∀ e s', exec_block (prelude w) s = (Raise e, s') →
                 run w s = (Raise e, s') ∧
                 new_output w s = [] ∧
                 opened_connections (new_calls w s) = []);
    [|split; [|split; [exact Hsem|]]].
  - intros e s' H.
    destruct (prelude_raise_is_silent w s s' e H) as (Hout & _ & Hopen).
    pose proof (run_prelude_raises w s s' e H) as Hrun.
    unfold new_output, new_calls. rewrite Hrun. simpl.
    split; [reflexivity|]. split; [|exact Hopen].
    rewrite Hout. apply drop_all.
  - intros e Hf.
    pose proof (prelude_outcome w s) as Ho. rewrite Hf in Ho.
    destruct (exec_block (prelude w) s) as [o s'] eqn:Hp. simpl in Ho. subst o.
    destruct (Hsem e s' eq_refl) as (Hrun & Hrest).
    rewrite Hrun. split; [reflexivity|exact Hrest].
  - intros e c Hin Hf.
    exact (close_fault_ends_run w s (run w s) e c eq_refl Hin Hf).
Qed.

(** *** The properties at work on sample worlds *)

Example healthy_run :
  fst (run healthy_world fresh_console) = Ok tt ∧
  new_output healthy_world fresh_console = [] ∧
  new_calls healthy_world fresh_console =
    [ Call_mapCanvas; Call_temporalController; Call_currentFrameNumber;
      Call_connect "localhost" "postgres" "postgres" "postgres" (Some 0);
      Call_set_autocommit 0 true; Call_register 0; Call_cursor 0;
      Call_dateTimeRangeForFrameNumber 7;
      Call_execute 0 "SELECT trip FROM trips_test" None;
      Call_fetchall 0; Call_close 0 ] ∧
  globals (snd (run healthy_world fresh_console)) !! "dtrange" =
    Some (PyRange (mk_range 7000 8000)).
Proof. vm_compute. repeat split. Qed.

Example missing_driver_is_not_caught :
  handler_matches missing_driver = true ∧
  fst (run world_without_driver fresh_console) = Raise missing_driver ∧
  new_output world_without_driver fresh_console = [] ∧
  new_calls world_without_driver fresh_console = [].
Proof. vm_compute. repeat split. Qed.

Example failing_close_is_not_caught :
  handler_matches close_failed = true ∧
  Call_close 0 ∈ new_calls world_query_and_close_fail fresh_console ∧
  fst (run world_query_and_close_fail fresh_console) = Raise close_failed.
Proof.
  split; [reflexivity|]. split; [|vm_compute; reflexivity].
  apply list_elem_of_In. vm_compute. tauto.
Qed.

(** C2 as stated fails in two ways.  When the query raises and the
    [close] call of the cleanup raises too, the one message is printed
    but the run does not end normally.  When the connection attempt is
    interrupted, the exception is outside [Exception]: nothing is
    printed and the exception leaves the script. *)
Lemma matched_fault_then_close_raises :
  (exec_block (prelude world_query_and_close_fail) fresh_console =
     (Ok tt, after_prelude world_query_and_close_fail fresh_console) ∧
   exec_block (try_body world_query_and_close_fail)
     (after_prelude world_query_and_close_fail fresh_console) =
     (Raise undefined_table,
      after_try_body world_query_and_close_fail fresh_console) ∧
   handler_matches undefined_table = true ∧
   new_output world_query_and_close_fail fresh_console =
     [error_line undefined_table] ∧
   fst (run world_query_and_close_fail fresh_console) = Raise close_failed ∧
   fst (run world_query_and_close_fail fresh_console) ≠ Ok tt) ∧
  (exec_block (prelude world_interrupted) fresh_console =
     (Ok tt, after_prelude world_interrupted fresh_console) ∧
   exec_block (try_body world_interrupted)
     (after_prelude world_interrupted fresh_console) =
     (Raise interrupted, after_try_body world_interrupted fresh_console) ∧
   new_output world_interrupted fresh_console = [] ∧
   fst (run world_interrupted fresh_console) = Raise interrupted).
Proof.
  split.
  - split; [vm_compute; reflexivity|].
    split; [vm_compute; reflexivity|].
    split; [reflexivity|].
    split; [vm_compute; reflexivity|].
    split; [vm_compute; reflexivity|].
    vm_compute. discriminate.
  - split; [vm_compute; reflexivity|].
    split; [vm_compute; reflexivity|].
    split; vm_compute; reflexivity.
Qed.

(** The amended C2 on a world whose query fails: one line printed, the
    connection closed, the run ends normally. *)
Lemma matched_fault_printed_once_witness :
  exec_block (prelude world_query_fails) fresh_console =
    (Ok tt, after_prelude world_query_fails fresh_console) ∧
  exec_block (try_body world_query_fails)
    (after_prelude world_query_fails fresh_console) =
    (Raise undefined_table, after_try_body world_query_fails fresh_console) ∧
  handler_matches undefined_table = true ∧
  new_output world_query_fails fresh_console = [error_line undefined_table] ∧
  closed_connections (new_calls world_query_fails fresh_console) = [0] ∧
  fst (run world_query_fails fresh_console) = Ok tt.
Proof.
  assert (H1 : exec_block (prelude world_query_fails) fresh_console =
               (Ok tt, after_prelude world_query_fails fresh_console))
    by (vm_compute; reflexivity).
  assert (H2 : exec_block (try_body world_query_fails)
                 (after_prelude world_query_fails fresh_console) =
               (Raise undefined_table,
                after_try_body world_query_fails fresh_console))
    by (vm_compute; reflexivity).
  assert (Hm : handler_matches undefined_table = true) by reflexivity.
  destruct (matched_fault_printed_once_then_cleanup
              world_query_fails fresh_console _ _ _ H1 H2 Hm)
    as (Hout & Hclosed & _ & Hend).
  split; [exact H1|]. split; [exact H2|]. split; [exact Hm|].
  split; [exact Hout|].
  split; [rewrite Hclosed; vm_compute; reflexivity|].
  rewrite Hend, Hclosed. vm_compute. reflexivity.
Defined.

(** C9 on a world whose query fails, from a console without [rows]. *)
Lemma rows_never_assigned_witness :
  exec_block (prelude world_query_fails) fresh_console =
    (Ok tt, after_prelude world_query_fails fresh_console) ∧
  exec_block (try_body world_query_fails)
    (after_prelude world_query_fails fresh_console) =
    (Raise undefined_table, after_try_body world_query_fails fresh_console) ∧
  globals (snd (run world_query_fails fresh_console)) !! "rows" = None.
Proof.
  assert (H1 : exec_block (prelude world_query_fails) fresh_console =
               (Ok tt, after_prelude world_query_fails fresh_console))
    by (vm_compute; reflexivity).
  assert (H2 : exec_block (try_body world_query_fails)
                 (after_prelude world_query_fails fresh_console) =
               (Raise undefined_table,
                after_try_body world_query_fails fresh_console))
    by (vm_compute; reflexivity).
  split; [exact H1|]. split; [exact H2|].
  apply (rows_never_assigned_when_try_raises
           world_query_fails fresh_console _ _ _ H1 H2).
  reflexivity.
Defined.

(** C6 on a world where nothing fails and the table has a trip and a
    null. *)
Lemma rows_hold_one_tuple_witness :
  exec_block (prelude healthy_world) fresh_console =
    (Ok tt, after_prelude healthy_world fresh_console) ∧
  exec_block (try_body healthy_world)
    (after_prelude healthy_world fresh_console) =
    (Ok tt, after_try_body healthy_world fresh_console) ∧
  ∃ rows : list pyval,
    globals (after_try_body healthy_world fresh_console) !! "rows" =
      Some (PyList rows) ∧
    globals (snd (run healthy_world fresh_console)) !! "rows" =
      Some (PyList rows) ∧
    length rows = length (trips_test healthy_world) ∧
    ∀ i v, trips_test healthy_world !! i = Some v →
           rows !! i =
           Some (PyTuple [match v with Some t => PyTrip t | None => PyNone end]).
Proof.
  assert (H1 : exec_block (prelude healthy_world) fresh_console =
               (Ok tt, after_prelude healthy_world fresh_console))
    by (vm_compute; reflexivity).
  assert (H2 : exec_block (try_body healthy_world)
                 (after_prelude healthy_world fresh_console) =
               (Ok tt, after_try_body healthy_world fresh_console))
    by (vm_compute; reflexivity).
  split; [exact H1|]. split; [exact H2|].
  exact (rows_hold_one_tuple_per_table_row
           healthy_world fresh_console _ _ H1 H2).
Defined.

(** *** Further properties of the script *)

Ltac use_faults :=
  repeat match goal with
         | H : ?f ?st = _ |- context [?f ?st] => rewrite H
         end.

Ltac in_log H :=
  apply list_elem_of_In in H; simpl in H;
  repeat (destruct H as [H|H]; [try discriminate H|]);
  try contradiction.

Lemma run_outcome_and_output (w : world) (s : state)
    (r : result unit * state) :
  run w s = r →
  fst r =
    match first_fault w prelude_sites with
    | Some e => Raise e
    | None =>
        match fault w Site_connect, fault w Site_close with
        | None, Some e' => Raise e'
        | _, _ =>
            match first_fault w try_sites with
            | Some e => if handler_matches e then Ok tt else Raise e
            | None => Ok tt
            end
        end
    end ∧
  drop (length (stdout s)) (stdout (snd r)) =
    match first_fault w prelude_sites with
    | Some _ => []
    | None =>
        match first_fault w try_sites with
        | Some e => if handler_matches e then [error_line e] else []
        | None => []
        end
    end.
Proof.
  destruct w as [flt fn fr tt]. destruct s as [g out cn cu cs].
  open_run. explore flt.
  all: finish_log.
  all: cbn [first_fault prelude_sites try_sites fault].
  all: use_faults.
  all: split; reflexivity.
Qed.

(** X6. How a run ends and what it prints, from any console state, in
    terms of what the external calls do.  An exception before the try
    block ends the run.  Otherwise, when a connection was opened and
    [close] raises, that exception ends the run; else the first
    exception of the try block ends it unless the handler matches it;
    else the run ends normally.  The run prints one line, for the first
    exception of the try block, exactly when the handler matches it, and
    nothing in every other case. *)
Theorem outcome_and_output_of_a_run (w : world) (s : state) :
  fst (run w s) =
    match first_fault w prelude_sites with
    | Some e => Raise e
    | None =>
        match fault w Site_connect, fault w Site_close with
        | None, Some e' => Raise e'
        | _, _ =>
            match first_fault w try_sites with
            | Some e => if handler_matches e then Ok tt else Raise e
            | None => Ok tt
            end
        end
    end ∧
  new_output w s =
    match first_fault w prelude_sites with
    | Some _ => []
    | None =>
        match first_fault w try_sites with
        | Some e => if handler_matches e then [error_line e] else []
        | None => []
        end
    end.
Proof. exact (run_outcome_and_output w s (run w s) eq_refl). Qed.

Lemma fault_free_run_eq (w : world) (s : state) (r : result unit * state) :
  (∀ st, fault w st = None) →
  run w s = r →
  let c := fresh (dom (connections s)) in
  let k := fresh (dom (cursors s)) in
  fst r = Ok tt ∧
  drop (length (stdout s)) (stdout (snd r)) = [] ∧
  drop (length (calls s)) (calls (snd r)) =
    [ Call_mapCanvas; Call_temporalController; Call_currentFrameNumber;
      Call_connect "localhost" "postgres" "postgres" "postgres" (Some c);
      Call_set_autocommit c true; Call_register c; Call_cursor c;
      Call_dateTimeRangeForFrameNumber (frame_number w);
      Call_execute k "SELECT trip FROM trips_test" None;
      Call_fetchall k; Call_close c ] ∧
  connections (snd r) !! c = Some (mk_connection true true true) ∧
  globals (snd r) !! "connection" = Some (PyConnection c) ∧
  globals (snd r) !! "currentFrameNumber" = Some (PyInt (frame_number w)) ∧
  globals (snd r) !! "dtrange" =
    Some (PyRange (frame_range w (frame_number w))) ∧
  globals (snd r) !! "error" = globals s !! "error".
Proof.
  destruct w as [flt fn fr tt]. destruct s as [g out cn cu cs].
  cbn [fault]. intros Hall.
  pose proof (Hall Site_import_psycopg2). pose proof (Hall Site_import_register).
  pose proof (Hall Site_mapCanvas). pose proof (Hall Site_temporalController).
  pose proof (Hall Site_currentFrameNumber). pose proof (Hall Site_connect).
  pose proof (Hall Site_autocommit). pose proof (Hall Site_register).
  pose proof (Hall Site_cursor).
  pose proof (Hall Site_dateTimeRangeForFrameNumber).
  pose proof (Hall Site_execute). pose proof (Hall Site_fetchall).
  pose proof (Hall Site_close).
  clear Hall. open_run. explore flt.
  cbv zeta. finish_log. cbn [frame_number frame_range].
  repeat imp_lookup.
  repeat split; reflexivity.
Qed.

(** X7. When no external call raises, the run ends normally and prints
    nothing.  It makes eleven calls in a fixed order: the connection is
    opened, put in autocommit mode and given the MobilityDB decoders
    before the cursor is opened and the query sent, the rows are fetched
    after the query, and the connection is closed last.  The date-time
    range asked of the temporal controller is the one of the frame
    number read at the start, and the variable [error] is left as it
    was. *)
Theorem fault_free_run (w : world) (s : state) :
  (∀ st, fault w st = None) →
  let c := fresh (dom (connections s)) in
  let k := fresh (dom (cursors s)) in
  fst (run w s) = Ok tt ∧
  new_output w s = [] ∧
  new_calls w s =
    [ Call_mapCanvas; Call_temporalController; Call_currentFrameNumber;
      Call_connect "localhost" "postgres" "postgres" "postgres" (Some c);
      Call_set_autocommit c true; Call_register c; Call_cursor c;
      Call_dateTimeRangeForFrameNumber (frame_number w);
      Call_execute k "SELECT trip FROM trips_test" None;
      Call_fetchall k; Call_close c ] ∧
  connections (snd (run w s)) !! c = Some (mk_connection true true true) ∧
  globals (snd (run w s)) !! "connection" = Some (PyConnection c) ∧
  globals (snd (run w s)) !! "currentFrameNumber" =
    Some (PyInt (frame_number w)) ∧
  globals (snd (run w s)) !! "dtrange" =
    Some (PyRange (frame_range w (frame_number w))) ∧
  globals (snd (run w s)) !! "error" = globals s !! "error".
Proof.
  intros Hall. exact (fault_free_run_eq w s (run w s) Hall eq_refl).
Qed.

(** X7 on the sample world in which nothing fails. *)
Lemma fault_free_run_witness :
  (∀ st, fault healthy_world st = None) ∧
  fst (run healthy_world fresh_console) = Ok tt ∧
  new_output healthy_world fresh_console = [].
Proof.
  assert (H : ∀ st, fault healthy_world st = None) by (intros st; reflexivity).
  split; [exact H|].
  destruct (fault_free_run healthy_world fresh_console H) as (Ha & Hb & _).
  split; [exact Ha | exact Hb].
Defined.

Lemma run_log_shape (w : world) (s : state) (r : result unit * state) :
  run w s = r →
  let new := drop (length (calls s)) (calls (snd r)) in
  (∀ c, Call_close c ∈ new → last new = Some (Call_close c)) ∧
  (∀ c, c ∈ opened_connections new →
        is_Some (connections (snd r) !! c) ∧
        globals (snd r) !! "connection" = Some (PyConnection c)) ∧
  (first_fault w prelude_sites = None →
   opened_connections new = [] →
   globals (snd r) !! "connection" = Some PyNone).
Proof.
  destruct w as [flt fn fr tt]. destruct s as [g out cn cu cs].
  open_run. explore flt.
  all: cbv zeta; finish_log.
  all: split; [intros c Hin; in_log Hin; try (injection Hin as <-; reflexivity)|].
  all: split;
    [ intros c Hin;
      first [ apply elem_of_nil in Hin; contradiction
            | apply list_elem_of_singleton in Hin; subst c;
              repeat imp_lookup; split; [eexists; reflexivity | reflexivity] ]
    | ].
  all: cbn [first_fault prelude_sites fault]; use_faults.
  all: intros Hp Ho; try discriminate Hp; try discriminate Ho.
  all: repeat imp_lookup; reflexivity.
Qed.

(** X8. Nothing is done with the connection once it is closed: when a
    run calls [close], that call is the last external call of the run. *)
Theorem close_is_the_last_call (w : world) (s : state) (c : nat) :
  Call_close c ∈ new_calls w s →
  last (new_calls w s) = Some (Call_close c).
Proof.
  intros Hin.
  exact (proj1 (run_log_shape w s (run w s) eq_refl) c Hin).
Qed.

(** X8 on the world whose query fails: the connection is closed, last. *)
Lemma close_is_the_last_call_witness :
  Call_close 0 ∈ new_calls world_query_fails fresh_console ∧
  last (new_calls world_query_fails fresh_console) = Some (Call_close 0).
Proof.
  assert (H : Call_close 0 ∈ new_calls world_query_fails fresh_console)
    by (apply list_elem_of_In; vm_compute; tauto).
  split; [exact H|].
  exact (close_is_the_last_call world_query_fails fresh_console 0 H).
Defined.

(** X9. After a run the variable [connection] tells what happened: it
    holds the connection the run opened, which is still in the driver's
    table, and it holds [None] when the run reached the try block and
    opened no connection. *)
Theorem connection_variable_after_run (w : world) (s : state) :
  (∀ c, c ∈ opened_connections (new_calls w s) →
        is_Some (connections (snd (run w s)) !! c) ∧
        globals (snd (run w s)) !! "connection" = Some (PyConnection c)) ∧
  (first_fault w prelude_sites = None →
   opened_connections (new_calls w s) = [] →
   globals (snd (run w s)) !! "connection" = Some PyNone).
Proof. exact (proj2 (run_log_shape w s (run w s) eq_refl)). Qed.

Lemma error_after_handling (w : world) (s s0 s1 : state) (e : exn)
    (r : result unit * state) :
  exec_block (prelude w) s = (Ok tt, s0) →
  exec_block (try_body w) s0 = (Raise e, s1) →
  handler_matches e = true →
  run w s = r →
  globals (snd r) !! "error" = None.
Proof.
  intros H1 H2 Hm.
  rewrite (run_after_prelude _ _ _ H1), (stmt_try_raise _ _ _ _ H2), Hm.
  clear Hm. revert H1 H2.
  destruct w as [flt fn fr tt]. destruct s as [g out cn cu cs].
  explore flt.
  all: cbn [fst snd globals].
  all: apply lookup_delete_eq.
Qed.

(** X10. The name [error] lives only inside the handler: after a run
    whose handler ran, the variable [error] is unbound, even when the
    console had it bound before the run. *)
Theorem error_is_unbound_after_handling
    (w : world) (s s0 s1 : state) (e : exn) :
  exec_block (prelude w) s = (Ok tt, s0) →
  exec_block (try_body w) s0 = (Raise e, s1) →
  handler_matches e = true →
  globals (snd (run w s)) !! "error" = None.
Proof.
  intros H1 H2 Hm.
  exact (error_after_handling w s s0 s1 e (run w s) H1 H2 Hm eq_refl).
Qed.

(** X10 from a console in which [error] was bound. *)
Lemma error_is_unbound_witness :
  globals console_with_error !! "error" = Some (PyStr "left over") ∧
  exec_block (prelude world_query_fails) console_with_error =
    (Ok tt, after_prelude world_query_fails console_with_error) ∧
  exec_block (try_body world_query_fails)
    (after_prelude world_query_fails console_with_error) =
    (Raise undefined_table,
     after_try_body world_query_fails console_with_error) ∧
  handler_matches undefined_table = true ∧
  globals (snd (run world_query_fails console_with_error)) !! "error" = None.
Proof.
  assert (H1 : exec_block (prelude world_query_fails) console_with_error =
               (Ok tt, after_prelude world_query_fails console_with_error))
    by (vm_compute; reflexivity).
  assert (H2 : exec_block (try_body world_query_fails)
                 (after_prelude world_query_fails console_with_error) =
               (Raise undefined_table,
                after_try_body world_query_fails console_with_error))
    by (vm_compute; reflexivity).
  assert (Hm : handler_matches undefined_table = true) by reflexivity.
  split; [vm_compute; reflexivity|].
  split; [exact H1|]. split; [exact H2|]. split; [exact Hm|].
  exact (error_is_unbound_after_handling
           world_query_fails console_with_error _ _ _ H1 H2 Hm).
Defined.

(** X11. An exception of the try block that the clause does not match
    (one outside [Exception], such as [KeyboardInterrupt]) is not
    reported: nothing is printed, the cleanup still closes exactly what
    was opened, and the run ends with that exception, or with the one
    [close] raises. *)
Theorem unmatched_exception_leaves_script
    (w : world) (s s0 s1 : state) (e : exn) :
  exec_block (prelude w) s = (Ok tt, s0) →
  exec_block (try_body w) s0 = (Raise e, s1) →
  handler_matches e = false →
  new_output w s = [] ∧
  closed_connections (new_calls w s) = opened_connections (new_calls w s) ∧
  fst (run w s) =
    match closed_connections (new_calls w s), fault w Site_close with
    | _ :: _, Some e' => Raise e'
    | _, _ => Raise e
    end.
Proof.
  intros H1 H2 Hm.
  exact (unmatched_exception_propagates w s s0 s1 e (run w s) H1 H2 Hm eq_refl).
Qed.

(** X11 on the world in which the connection attempt is interrupted. *)
Lemma unmatched_exception_witness :
  exec_block (prelude world_interrupted) fresh_console =
    (Ok tt, after_prelude world_interrupted fresh_console) ∧
  exec_block (try_body world_interrupted)
    (after_prelude world_interrupted fresh_console) =
    (Raise interrupted, after_try_body world_interrupted fresh_console) ∧
  handler_matches interrupted = false ∧
  new_output world_interrupted fresh_console = [] ∧
  fst (run world_interrupted fresh_console) = Raise interrupted.
Proof.
  assert (H1 : exec_block (prelude world_interrupted) fresh_console =
               (Ok tt, after_prelude world_interrupted fresh_console))
    by (vm_compute; reflexivity).
  assert (H2 : exec_block (try_body world_interrupted)
                 (after_prelude world_interrupted fresh_console) =
               (Raise interrupted,
                after_try_body world_interrupted fresh_console))
    by (vm_compute; reflexivity).
  assert (Hm : handler_matches interrupted = false) by reflexivity.
  destruct (unmatched_exception_leaves_script
              world_interrupted fresh_console _ _ _ H1 H2 Hm)
    as (Hout & Hclosed & Hend).
  split; [exact H1|]. split; [exact H2|]. split; [exact Hm|].
  split; [exact Hout|].
  rewrite Hend. vm_compute. reflexivity.
Defined.



(** X13. Every run works on a connection of its own: a connection
    opened by a run is never the one an earlier run in the same console
    opened, whatever happened in either run. *)
Theorem consecutive_runs_use_distinct_connections
    (w1 w2 : world) (s : state) (c1 c2 : nat) :
  c1 ∈ opened_connections (new_calls w1 s) →
  c2 ∈ opened_connections (new_calls w2 (snd (run w1 s))) →
  c1 ≠ c2.
Proof.
  intros H1 H2 Heq. subst c2.
  destruct (proj1 (proj2 (run_log_shape w1 s (run w1 s) eq_refl)) c1 H1)
    as [[x Hx] _].
  pose proof (proj1 (proj2 (proj2
    (run_connection_discipline w2 (snd (run w1 s)) _ eq_refl))) c1 H2) as Hn.
  rewrite Hx in Hn. discriminate.
Qed.

(** X13 on two runs in a row in which nothing fails. *)
Lemma consecutive_runs_witness :
  0 ∈ opened_connections (new_calls healthy_world fresh_console) ∧
  1 ∈ opened_connections
        (new_calls healthy_world (snd (run healthy_world fresh_console))) ∧
  0 ≠ 1.
Proof.
  assert (H1 : 0 ∈ opened_connections (new_calls healthy_world fresh_console))
    by (apply list_elem_of_In; vm_compute; tauto).
  assert (H2 : 1 ∈ opened_connections
                     (new_calls healthy_world
                        (snd (run healthy_world fresh_console))))
    by (apply list_elem_of_In; vm_compute; tauto).
  split; [exact H1|]. split; [exact H2|].
  exact (consecutive_runs_use_distinct_connections
           healthy_world healthy_world fresh_console 0 1 H1 H2).
Defined.

End TripRowImporter.
